(** * Snake Rush: the simulation core of [snake_rush.py] / [snakerush.py]

    A shallow embedding of the game-state core (leaderboard, snake, food,
    spawn and difficulty policy, session update) together with the
    properties listed in section 8 of the design document.

    Conventions.
    - Python integers are [Z]; [//] and [%] are [Z.div] and [Z.modulo]
      (both floor towards minus infinity, as in Python); a zero divisor
      raises [ZeroDivisionError].
    - Pixel coordinates are pairs of integers, as the source keeps them.
    - Module level globals, the random generator, the wall clock and the
      leaderboard file form the [World]; code that touches them lives in the
      monad [M] (world passing, with Python exceptions as results).
    - Drawing, fonts, buttons geometry and audio do not touch the modelled
      state and are left out. *)

From Stdlib Require Import ZArith List Bool Lia String Permutation Sorted.
Import ListNotations.
Local Open Scope Z_scope.

(** ** Constants *)

Definition BLOCK_SIZE : Z := 30.
Definition BASE_FPS : Z := 8.
Definition MAX_FPS : Z := 20.
Definition SPEED_INTERVAL : Z := 5.

(** The two game variants of the repository.  [Game.update] is modelled
    for both: they differ in the growth table, in the guard that halts
    the update, and in the [LeaderBoard] they submit to.  Pixel positions
    are in the 30-pixel blocks of [snake_rush.py] ([snakerush.py] has
    [BLOCK_SIZE = 40]); sessions, events and [main] are those of
    [snake_rush.py]. *)
Inductive Variant := snake_rush | snakerush.

(** ** Leaderboard entries

    The dictionaries [{'score': .., 'length': .., 'date': ..}]. *)
Module Entry.
Record t := mk { score : Z; length : Z; date : string }.
End Entry.

(** ** World: globals and environment *)

(** Contents of the leaderboard file on which [load_scores] raises an
    exception that it does not catch. *)
Inductive Foreign :=
| not_text             (* bytes that do not decode as text *)
| not_a_list           (* JSON, but an object, a string, a number,
                          [true], [false] or [null]: it has no [sort] *)
| item_not_an_object   (* a JSON list; the first element that has no
                          ['score'] is not an object *)
| item_without_score.  (* a JSON list; the first element that has no
                          ['score'] is an object without that key *)

(** What the leaderboard file holds, as far as [load_scores] tells the
    cases apart.  Scores are Python ints, as the program writes them: a
    file whose records carry other JSON values as scores (floats,
    strings) is not represented. *)
Inductive FileState :=
| Missing
| Corrupt                           (* cannot be read, or is not JSON *)
| Stored (entries : list Entry.t)   (* a JSON list of records *)
| Other (content : Foreign).

(** Calls made on the leaderboard by the session, in program order. *)
Inductive Call :=
| Call_is_high_score (score : Z)
| Call_add_score (score length : Z).

Record World := mkWorld {
  GRID_WIDTH : Z;
  GRID_HEIGHT : Z;
  SCREEN_WIDTH : Z;
  SCREEN_HEIGHT : Z;
  fullscreen : bool;
  tape : list Z;          (* the draws [random] will hand out next *)
  clock : string;         (* what [datetime.now().strftime] returns *)
  disk_ok : bool;         (* whether opening the file for writing works *)
  file : FileState;
  calls : list Call
}.

Definition with_screen (sw sh : Z) (w : World) : World :=
  mkWorld (GRID_WIDTH w) (GRID_HEIGHT w) sw sh (fullscreen w) (tape w)
          (clock w) (disk_ok w) (file w) (calls w).
Definition with_tape (t : list Z) (w : World) : World :=
  mkWorld (GRID_WIDTH w) (GRID_HEIGHT w) (SCREEN_WIDTH w) (SCREEN_HEIGHT w)
          (fullscreen w) t (clock w) (disk_ok w) (file w) (calls w).
Definition with_file (f : FileState) (w : World) : World :=
  mkWorld (GRID_WIDTH w) (GRID_HEIGHT w) (SCREEN_WIDTH w) (SCREEN_HEIGHT w)
          (fullscreen w) (tape w) (clock w) (disk_ok w) f (calls w).
Definition with_calls (c : list Call) (w : World) : World :=
  mkWorld (GRID_WIDTH w) (GRID_HEIGHT w) (SCREEN_WIDTH w) (SCREEN_HEIGHT w)
          (fullscreen w) (tape w) (clock w) (disk_ok w) (file w) c.
(** The environment moves between frames: time passes, the generator has
    more draws to give, the disk may fail or recover. *)
Definition with_env (t : list Z) (c : string) (d : bool) (w : World) : World :=
  mkWorld (GRID_WIDTH w) (GRID_HEIGHT w) (SCREEN_WIDTH w) (SCREEN_HEIGHT w)
          (fullscreen w) t c d (file w) (calls w).

(** ** Results and the world-passing monad *)

Inductive exn :=
| IndexError | ZeroDivisionError | ValueError
| IOError | UnicodeDecodeError | AttributeError | TypeError | KeyError.

Inductive res (A : Type) :=
| Ok (a : A)
| Raise (e : exn)
| Starved.               (* the tape of random draws ran dry *)
Arguments Ok {A} a.
Arguments Raise {A} e.
Arguments Starved {A}.

Definition M (A : Type) : Type := World -> res (A * World).

Definition ret {A} (a : A) : M A := fun w => Ok (a, w).
Definition bind {A B} (c : M A) (k : A -> M B) : M B :=
  fun w => match c w with
           | Ok (a, w') => k a w'
           | Raise e => Raise e
           | Starved => Starved
           end.
Definition raise {A} (e : exn) : M A := fun _ => Raise e.
Definition starve {A} : M A := fun _ => Starved.
Definition ask : M World := fun w => Ok (w, w).
Definition modify (f : World -> World) : M unit := fun w => Ok (tt, f w).

Notation "x <- c ;; k" := (bind c (fun x => k))
  (at level 61, c at next level, right associativity).
Notation "' pat <- c ;; k" := (bind c (fun x => match x with pat => k end))
  (at level 61, pat pattern, c at next level, right associativity).
Notation "c ;;; k" := (bind c (fun _ => k))
  (at level 61, right associativity).

(** [a % b] *)
Definition py_mod (a b : Z) : M Z :=
  if b =? 0 then raise ZeroDivisionError else ret (a mod b).

(** [random.randint(lo, hi)]: a uniform draw in [lo..hi]; the next value of
    the tape decides which. *)
Definition randint (lo hi : Z) : M Z :=
  fun w =>
    if hi <? lo then Raise ValueError
    else match tape w with
         | [] => Starved
         | r :: t => Ok (lo + r mod (hi - lo + 1), with_tape t w)
         end.

(** [datetime.now().strftime("%Y-%m-%d %H:%M")] *)
Definition now : M string := fun w => Ok (clock w, w).

Definition tell (c : Call) : M unit :=
  modify (fun w => with_calls (calls w ++ [c]) w).

(** Pixel positions and their equality ([==] on tuples of ints). *)
Definition pos : Type := (Z * Z)%type.
Definition pos_eqb (p q : pos) : bool :=
  (fst p =? fst q) && (snd p =? snd q).
(** [p in l] *)
Definition pos_in (p : pos) (l : list pos) : bool := existsb (pos_eqb p) l.
(** [len(l)] *)
Definition len {A} (l : list A) : Z := Z.of_nat (List.length l).

(** ** LeaderBoard *)

Module LeaderBoard.

Record t := mk { scores : list Entry.t }.

(** [l.sort(key=lambda x: x['score'], reverse=True)]: Python's sort is
    stable, also under [reverse=True], so entries of equal score keep
    their order.  [insert] places an entry in front of the first one
    whose score is not greater. *)
Fixpoint insert (e : Entry.t) (l : list Entry.t) : list Entry.t :=
  match l with
  | [] => [e]
  | x :: r =>
      if Entry.score e <? Entry.score x then x :: insert e r
      else e :: l
  end.
Definition sort_desc (l : list Entry.t) : list Entry.t :=
  fold_right insert [] l.

(** The write is inside [try: ... except IOError]: a failure leaves the
    file as it is and is not raised. *)
Definition save_scores (lb : t) : M unit :=
  modify (fun w => if disk_ok w then with_file (Stored (scores lb)) w
                   else w).

Definition reset_scores (lb : t) : M t :=
  let lb := mk [] in
  save_scores lb ;;; ret lb.

(** What [json.load] and [sort(key=lambda x: x['score'])] raise on
    foreign content. *)
Definition uncaught (content : Foreign) : exn :=
  match content with
  | not_text => UnicodeDecodeError
  | not_a_list => AttributeError
  | item_not_an_object => TypeError
  | item_without_score => KeyError
  end.

(** [except (json.JSONDecodeError, IOError)] catches a file that cannot
    be read or is not JSON, and nothing else. *)
Definition load_scores (lb : t) : M t :=
  w <- ask ;;
  match file w with
  | Stored l => ret (mk (firstn 10 (sort_desc l)))
  | Missing => save_scores lb ;;; ret lb
  | Corrupt => ret (mk [])
  | Other content => raise (uncaught content)
  end.

(** [LeaderBoard.__init__] *)
Definition init : M t := load_scores (mk []).

Definition add_score (lb : t) (score length : Z) : M t :=
  if score >? 0 then
    d <- now ;;
    let new_entry := Entry.mk score length d in
    let l := sort_desc (scores lb ++ [new_entry]) in
    let l := if len l >? 10 then firstn 10 l else l in
    let lb := mk l in
    save_scores lb ;;; ret lb
  else ret lb.

Definition get_top_scores (lb : t) (limit : nat) : list Entry.t :=
  firstn limit (scores lb).

Definition get_high_score (lb : t) : Z :=
  match scores lb with
  | e :: _ => Entry.score e
  | [] => 0
  end.

(** [min(entry['score'] for entry in l)] on a list that is not empty. *)
Definition min_score (e : Entry.t) (l : list Entry.t) : Z :=
  fold_left (fun m x => Z.min m (Entry.score x)) l (Entry.score e).

Definition is_high_score (lb : t) (score : Z) : bool :=
  match scores lb with
  | [] => true
  | e :: r => (len (scores lb) <? 10) || (score >? min_score e r)
  end.

End LeaderBoard.

(** ** The [LeaderBoard] of [snakerush.py]

    The methods that differ from the ones above: no write is guarded, so
    a file that cannot be opened for writing raises [IOError] out of
    [save_scores] and out of the branch of [load_scores] that creates the
    file. *)
Module Snakerush.

Definition save_scores (lb : LeaderBoard.t) : M unit :=
  fun w => if disk_ok w
           then Ok (tt, with_file (Stored (LeaderBoard.scores lb)) w)
           else Raise IOError.

Definition load_scores (lb : LeaderBoard.t) : M LeaderBoard.t :=
  w <- ask ;;
  match file w with
  | Stored l =>
      ret (LeaderBoard.mk (firstn 10 (LeaderBoard.sort_desc l)))
  | Corrupt => ret (LeaderBoard.mk [])
  | Other content => raise (LeaderBoard.uncaught content)
  | Missing =>
      (fun w => if disk_ok w then Ok (tt, with_file (Stored []) w)
                else Raise IOError) ;;;
      ret lb
  end.

(** [LeaderBoard.__init__] *)
Definition init : M LeaderBoard.t := load_scores (LeaderBoard.mk []).

Definition add_score (lb : LeaderBoard.t) (score length : Z)
  : M LeaderBoard.t :=
  if score >? 0 then
    d <- now ;;
    let new_entry := Entry.mk score length d in
    let l := LeaderBoard.sort_desc (LeaderBoard.scores lb ++ [new_entry]) in
    let l := if len l >? 10 then firstn 10 l else l in
    let lb := LeaderBoard.mk l in
    save_scores lb ;;; ret lb
  else ret lb.

End Snakerush.

(** ** Snake *)

Module Snake.

Record t := mk {
  positions : list pos;
  direction : pos;
  next_direction : pos;
  length : Z;
  score : Z
}.

Definition set_positions (p : list pos) (s : t) : t :=
  mk p (direction s) (next_direction s) (length s) (score s).
Definition set_direction (d : pos) (s : t) : t :=
  mk (positions s) d (next_direction s) (length s) (score s).
Definition set_next_direction (d : pos) (s : t) : t :=
  mk (positions s) (direction s) d (length s) (score s).
Definition set_length (n : Z) (s : t) : t :=
  mk (positions s) (direction s) (next_direction s) n (score s).
Definition set_score (n : Z) (s : t) : t :=
  mk (positions s) (direction s) (next_direction s) (length s) n.

Definition reset : M t :=
  w <- ask ;;
  let grid_x := GRID_WIDTH w / 2 in
  let grid_y := GRID_HEIGHT w / 2 in
  ret (mk [(grid_x * BLOCK_SIZE, grid_y * BLOCK_SIZE)] (1, 0) (1, 0) 1 0).

(** [Snake.__init__] *)
Definition init : M t := reset.

Definition get_head_position (s : t) : M pos :=
  match positions s with
  | p :: _ => ret p
  | [] => raise IndexError
  end.

(** Returns [True] on self-collision (game over).  [direction] is
    committed before the test; [insert(0, ..)] and [pop()] happen only on
    the other path. *)
Definition update (s : t) : M (bool * t) :=
  let s := set_direction (next_direction s) s in
  ' (head_x, head_y) <- get_head_position s ;;
  let '(dir_x, dir_y) := direction s in
  w <- ask ;;
  new_x <- py_mod (head_x + dir_x * BLOCK_SIZE) (SCREEN_WIDTH w) ;;
  new_y <- py_mod (head_y + dir_y * BLOCK_SIZE) (SCREEN_HEIGHT w) ;;
  if pos_in (new_x, new_y) (tl (positions s)) then
    ret (true, s)
  else
    let ps := (new_x, new_y) :: positions s in
    let ps := if len ps >? length s then removelast ps else ps in
    ret (false, set_positions ps s).

Definition change_direction (direction : pos) (s : t) : t :=
  if negb (pos_eqb (fst direction * -1, snd direction * -1)
                   (Snake.direction s))
  then set_next_direction direction s
  else s.

End Snake.

(** ** pygame rectangles

    [pygame.Rect(x, y, w, h)] and [Rect.colliderect] as the library
    computes it: the four fields are C [int]s, and so are the sums
    [x + w] and [y + h] that it compares, which wrap around at [2^31];
    rectangles of zero width or height collide with nothing, the others
    overlap when their open interiors meet. *)

(** The 32-bit two's complement integer a C [int] holds for [z]. *)
Definition c_int (z : Z) : Z :=
  (z + 2147483648) mod 4294967296 - 2147483648.

Module Rect.
Record t := mk { x : Z; y : Z; w : Z; h : Z }.

(** [pygame.Rect(x, y, w, h)]; a value out of range is reduced to the C
    [int] of the same low 32 bits (the properties of the consumption
    test take the coordinates in range). *)
Definition init (x y w h : Z) : t :=
  mk (c_int x) (c_int y) (c_int w) (c_int h).

Definition colliderect (a b : t) : bool :=
  if (w a =? 0) || (h a =? 0) || (w b =? 0) || (h b =? 0) then false
  else
    (Z.min (x a) (c_int (x a + w a))
     <? Z.max (x b) (c_int (x b + w b))) &&
    (Z.min (y a) (c_int (y a + h a))
     <? Z.max (y b) (c_int (y b + h b))) &&
    (Z.max (x a) (c_int (x a + w a))
     >? Z.min (x b) (c_int (x b + w b))) &&
    (Z.max (y a) (c_int (y a + h a))
     >? Z.min (y b) (c_int (y b + h b))).
End Rect.

(** ** Food *)

Module Food.

Record t := mk {
  type : Z;
  position : pos;
  timer : Z;
  active : bool;
  points : Z
}.

Definition set_position (p : pos) (f : t) : t :=
  mk (type f) p (timer f) (active f) (points f).

Definition eqb (f g : t) : bool :=
  (type f =? type g) && pos_eqb (position f) (position g) &&
  (timer f =? timer g) && Bool.eqb (active f) (active g) &&
  (points f =? points g).

Definition randomize_position (f : t) : M t :=
  w <- ask ;;
  x <- randint 0 (GRID_WIDTH w - 1) ;;
  y <- randint 0 (GRID_HEIGHT w - 1) ;;
  ret (set_position (x * BLOCK_SIZE, y * BLOCK_SIZE) f).

(** [Food.__init__(food_type)] *)
Definition init (food_type : Z) : M t :=
  f <- randomize_position (mk food_type (0, 0) 0 true 1) ;;
  let p := position f in
  if food_type =? 2 then ret (mk food_type p 150 true 2)
  else if food_type =? 3 then ret (mk food_type p 100 true 3)
  else if food_type =? 4 then ret (mk food_type p 80 true 5)
  else ret (mk food_type p 0 true 1).

(** The food after [update()]; the call returns its [active] field. *)
Definition update (f : t) : t :=
  if type f >? 1 then
    let timer' := timer f - 1 in
    if timer' <=? 0 then mk (type f) (position f) timer' false (points f)
    else mk (type f) (position f) timer' (active f) (points f)
  else f.

End Food.

(** ** Game *)

Module Game.

Record t := mk {
  snake : Snake.t;
  foods : list Food.t;
  game_over : bool;
  paused : bool;
  current_speed : Z;
  leaderboard : LeaderBoard.t;
  score_submitted : bool;
  title_screen : bool;
  show_leaderboard : bool;
  show_options : bool
}.

Definition set_snake (s : Snake.t) (g : t) : t :=
  mk s (foods g) (game_over g) (paused g) (current_speed g) (leaderboard g)
     (score_submitted g) (title_screen g) (show_leaderboard g)
     (show_options g).
Definition set_foods (f : list Food.t) (g : t) : t :=
  mk (snake g) f (game_over g) (paused g) (current_speed g) (leaderboard g)
     (score_submitted g) (title_screen g) (show_leaderboard g)
     (show_options g).
Definition set_game_over (b : bool) (g : t) : t :=
  mk (snake g) (foods g) b (paused g) (current_speed g) (leaderboard g)
     (score_submitted g) (title_screen g) (show_leaderboard g)
     (show_options g).
Definition set_paused (b : bool) (g : t) : t :=
  mk (snake g) (foods g) (game_over g) b (current_speed g) (leaderboard g)
     (score_submitted g) (title_screen g) (show_leaderboard g)
     (show_options g).
Definition set_current_speed (n : Z) (g : t) : t :=
  mk (snake g) (foods g) (game_over g) (paused g) n (leaderboard g)
     (score_submitted g) (title_screen g) (show_leaderboard g)
     (show_options g).
Definition set_leaderboard (l : LeaderBoard.t) (g : t) : t :=
  mk (snake g) (foods g) (game_over g) (paused g) (current_speed g) l
     (score_submitted g) (title_screen g) (show_leaderboard g)
     (show_options g).
Definition set_score_submitted (b : bool) (g : t) : t :=
  mk (snake g) (foods g) (game_over g) (paused g) (current_speed g)
     (leaderboard g) b (title_screen g) (show_leaderboard g)
     (show_options g).
Definition set_title_screen (b : bool) (g : t) : t :=
  mk (snake g) (foods g) (game_over g) (paused g) (current_speed g)
     (leaderboard g) (score_submitted g) b (show_leaderboard g)
     (show_options g).
Definition set_show_leaderboard (b : bool) (g : t) : t :=
  mk (snake g) (foods g) (game_over g) (paused g) (current_speed g)
     (leaderboard g) (score_submitted g) (title_screen g) b
     (show_options g).
Definition set_show_options (b : bool) (g : t) : t :=
  mk (snake g) (foods g) (game_over g) (paused g) (current_speed g)
     (leaderboard g) (score_submitted g) (title_screen g)
     (show_leaderboard g) b.

Definition get_food_spawn_chances (g : t) : list Z :=
  let score := Snake.score (snake g) in
  if score <? 10 then [85; 15; 0; 0]
  else if score <? 25 then [70; 25; 5; 0]
  else if score <? 50 then [60; 25; 12; 3]
  else [50; 30; 15; 5].

(** [while new_food.position in positions: new_food.randomize_position()].
    Every turn of the loop takes two draws from the tape, so a fuel above
    the number of draws left never runs out: the loop ends with a free
    position, with an exception, or with the tape
    ([reroll_fuel_enough]). *)
Fixpoint reroll (fuel : nat) (positions : list pos) (f : Food.t)
  : M Food.t :=
  if pos_in (Food.position f) positions then
    match fuel with
    | O => starve
    | S fuel' =>
        f' <- Food.randomize_position f ;;
        reroll fuel' positions f'
    end
  else ret f.

Definition spawn_food (g : t) : M t :=
  let chances := get_food_spawn_chances g in
  rand <- randint 1 100 ;;
  let food_type :=
    if rand <=? nth 0 chances 0 then 1
    else if rand <=? nth 0 chances 0 + nth 1 chances 0 then 2
    else if rand <=? nth 0 chances 0 + nth 1 chances 0 + nth 2 chances 0
         then 3
    else 4 in
  new_food <- Food.init food_type ;;
  w <- ask ;;
  new_food <- reroll (S (List.length (tape w)))
                     (Snake.positions (snake g)) new_food ;;
  ret (set_foods (foods g ++ [new_food]) g).

Definition update_speed (g : t) : t :=
  let speed_increase := Snake.score (snake g) / SPEED_INTERVAL in
  set_current_speed (Z.min (BASE_FPS + speed_increase) MAX_FPS) g.

(** [Game.__init__]; the buttons and the music are left out. *)
Definition init : M t :=
  s <- Snake.init ;;
  lb <- LeaderBoard.init ;;
  let g := mk s [] false false BASE_FPS lb false true false false in
  g <- spawn_food g ;;
  spawn_food g.

Definition restart_game (g : t) : M t :=
  s <- Snake.reset ;;
  let g := set_snake s g in
  let g := set_foods [] g in
  let g := set_game_over false g in
  let g := set_paused false g in
  let g := set_score_submitted false g in
  let g := set_current_speed BASE_FPS g in
  g <- spawn_food g ;;
  spawn_food g.

(** First loop of [update]:
    [for food in self.foods[:]: if not food.update(): self.foods.remove(food)].
    The objects of the copy are the objects of the list, so each food is
    updated in place and dropped when it turned inactive. *)
Fixpoint expire (snapshot : list Food.t) : list Food.t :=
  match snapshot with
  | [] => []
  | food :: rest =>
      let food := Food.update food in
      if Food.active food then food :: expire rest else expire rest
  end.

(** [l.remove(x)]: drops the first element equal to [x].  Food objects
    compare by identity; in the loop below every earlier element that
    looks like [x] passed the same test and is already gone, so the first
    look-alike is [x] itself. *)
Fixpoint remove (x : Food.t) (l : list Food.t) : list Food.t :=
  match l with
  | [] => []
  | y :: r => if Food.eqb y x then r else y :: remove x r
  end.

(** Segments gained per food type, for each variant. *)
Definition growth (v : Variant) (food_type : Z) : Z :=
  match v with
  | snake_rush =>
      if food_type =? 1 then 1 else if food_type =? 2 then 2
      else if food_type =? 3 then 3 else if food_type =? 4 then 4 else 0
  | snakerush =>
      if food_type =? 1 then 1 else if food_type =? 2 then 1
      else if food_type =? 3 then 2 else if food_type =? 4 then 3 else 0
  end.

Definition head_rect (head : pos) : Rect.t :=
  Rect.init (fst head) (snd head) BLOCK_SIZE BLOCK_SIZE.
Definition food_rect (food : Food.t) : Rect.t :=
  Rect.init (fst (Food.position food)) (snd (Food.position food))
            BLOCK_SIZE BLOCK_SIZE.

(** [head_rect.colliderect(food_rect) and food.active] *)
Definition eats (head : pos) (food : Food.t) : bool :=
  Rect.colliderect (head_rect head) (food_rect food) && Food.active food.

(** Body of the consumption branch. *)
Definition eat (v : Variant) (food : Food.t) (g : t) : M t :=
  let g := set_foods (remove food (foods g)) g in
  let s := snake g in
  let s := Snake.set_score (Snake.score s + Food.points food) s in
  let s := Snake.set_length
             (Snake.length s + growth v (Food.type food)) s in
  let g := set_snake s g in
  g <- spawn_food g ;;
  ret (update_speed g).

(** Second loop of [update], over the copy [self.foods[:]]. *)
Fixpoint eat_loop (v : Variant) (head : pos) (snapshot : list Food.t)
  (g : t) : M t :=
  match snapshot with
  | [] => ret g
  | food :: rest =>
      if eats head food then
        g <- eat v food g ;;
        eat_loop v head rest g
      else eat_loop v head rest g
  end.

(** [while len(self.foods) < min_foods: self.spawn_food()]; each turn
    adds one food, so a fuel of the gap is enough
    ([top_up_fuel_enough]). *)
Fixpoint top_up (fuel : nat) (min_foods : Z) (g : t) : M t :=
  if len (foods g) <? min_foods then
    match fuel with
    | O => starve
    | S fuel' => g <- spawn_food g ;; top_up fuel' min_foods g
    end
  else ret g.

(** [self.leaderboard.add_score]: each variant has its own
    [LeaderBoard]. *)
Definition add_score (v : Variant)
  : LeaderBoard.t -> Z -> Z -> M LeaderBoard.t :=
  match v with
  | snake_rush => LeaderBoard.add_score
  | snakerush => Snakerush.add_score
  end.

(** The guard of [update]: only [snakerush.py] looks at [show_options]. *)
Definition halted (v : Variant) (g : t) : bool :=
  title_screen g || game_over g || paused g || show_leaderboard g ||
  match v with snake_rush => false | snakerush => show_options g end.

Definition update (v : Variant) (g : t) : M t :=
  if halted v g then
    if game_over g && negb (score_submitted g) then
      let score := Snake.score (snake g) in
      let length := Snake.length (snake g) in
      tell (Call_is_high_score score) ;;;
      lb <- (if LeaderBoard.is_high_score (leaderboard g) score then
               tell (Call_add_score score length) ;;;
               add_score v (leaderboard g) score length
             else ret (leaderboard g)) ;;
      ret (set_score_submitted true (set_leaderboard lb g))
    else ret g
  else
    ' (over, s) <- Snake.update (snake g) ;;
    let g := set_snake s g in
    if over : bool then
      ret (set_game_over true g)
    else
      let g := set_foods (expire (foods g)) g in
      head <- Snake.get_head_position (snake g) ;;
      g <- eat_loop v head (foods g) g ;;
      let min_foods := Z.min (2 + Snake.score (snake g) / 15) 4 in
      top_up (Z.to_nat (min_foods - len (foods g))) min_foods g.

(** *** Input events

    What [pygame.event.get()] hands to [handle_events].  A mouse click
    carries, for every widget the handler asks about, whether the click
    hit it ([is_clicked] / [collidepoint]), and what the confirmation
    dialog answers should the handler open it. *)
Inductive Key :=
| K_RETURN | K_SPACE | K_ESCAPE | K_UP | K_w | K_DOWN | K_s
| K_LEFT | K_a | K_RIGHT | K_d | K_p | K_r | K_other.

Inductive Widget :=
| start_button | title_leaderboard_button | title_quit_button
| back_button | reset_scores_button | resume_button
| leaderboard_button | restart_button | quit_button
| restart_text_rect.

(** [show_confirmation_dialog] returns [True], [False] or
    ["show_credits"]. *)
Inductive Answer := AnsTrue | AnsFalse | AnsShowCredits.
Definition truthy (a : Answer) : bool :=
  match a with AnsFalse => false | _ => true end.

Inductive Event :=
| QUIT
| VIDEORESIZE (size : Z * Z)
| KEYDOWN (key : Key)
| MOUSEBUTTONDOWN (hit : Widget -> bool) (confirm : Answer)
| OTHER.

(** [handle_events] returns [True] or ["show_credits"]. *)
Inductive Outcome := Continue | ShowCredits.

Definition on_keydown (key : Key) (g : t) : M t :=
  if title_screen g then
    match key with
    | K_RETURN | K_SPACE =>
        if negb (show_leaderboard g) then ret (set_title_screen false g)
        else ret g
    | K_ESCAPE =>
        if show_leaderboard g
        then ret (set_show_options false (set_show_leaderboard false g))
        else ret g
    | _ => ret g
    end
  else if show_leaderboard g then
    match key with
    | K_ESCAPE =>
        ret (set_show_options false (set_show_leaderboard false g))
    | _ => ret g
    end
  else if paused g then
    match key with
    | K_ESCAPE => ret (set_paused false g)
    | _ => ret g
    end
  else if negb (game_over g) && negb (paused g) then
    match key with
    | K_UP | K_w =>
        ret (set_snake (Snake.change_direction (0, -1) (snake g)) g)
    | K_DOWN | K_s =>
        ret (set_snake (Snake.change_direction (0, 1) (snake g)) g)
    | K_LEFT | K_a =>
        ret (set_snake (Snake.change_direction (-1, 0) (snake g)) g)
    | K_RIGHT | K_d =>
        ret (set_snake (Snake.change_direction (1, 0) (snake g)) g)
    | K_ESCAPE => ret (set_paused true g)
    | K_p => ret (set_paused (negb (paused g)) g)
    | K_r => restart_game g
    | _ => ret g
    end
  else if game_over g then
    match key with
    | K_r => restart_game g
    | K_ESCAPE => g <- init ;; ret (set_title_screen true g)
    | _ => ret g
    end
  else ret g.

Definition on_reset_scores (g : t) : M t :=
  lb <- LeaderBoard.reset_scores (leaderboard g) ;;
  ret (set_leaderboard lb g).

Definition on_mousebuttondown (hit : Widget -> bool) (confirm : Answer)
  (g : t) : M (Outcome * t) :=
  if title_screen g then
    if negb (show_leaderboard g) then
      if hit start_button then ret (Continue, set_title_screen false g)
      else if hit title_leaderboard_button then
        ret (Continue, set_show_options false (set_show_leaderboard true g))
      else if hit title_quit_button then ret (ShowCredits, g)
      else ret (Continue, g)
    else if show_leaderboard g && hit back_button then
      ret (Continue, set_show_leaderboard false g)
    else if show_leaderboard g && hit reset_scores_button then
      if truthy confirm then
        g <- on_reset_scores g ;;
        ret (Continue, set_show_leaderboard true g)
      else ret (Continue, g)
    else ret (Continue, g)
  else if paused g && negb (show_leaderboard g) then
    if hit resume_button then ret (Continue, set_paused false g)
    else if hit leaderboard_button then
      ret (Continue, set_show_options false (set_show_leaderboard true g))
    else if hit restart_button then
      g <- restart_game g ;; ret (Continue, set_paused false g)
    else if hit quit_button then
      g <- init ;;
      ret (Continue, set_paused false (set_title_screen true g))
    else ret (Continue, g)
  else if show_leaderboard g && hit back_button then
    ret (Continue, set_show_leaderboard false g)
  else if hit reset_scores_button then
    if truthy confirm then g <- on_reset_scores g ;; ret (Continue, g)
    else ret (Continue, g)
  else if game_over g then
    if hit restart_text_rect then
      g <- restart_game g ;; ret (Continue, g)
    else ret (Continue, g)
  else ret (Continue, g).

Definition on_videoresize (size : Z * Z) : M unit :=
  modify (fun w => if negb (fullscreen w)
                   then with_screen (fst size) (snd size) w else w).

(** [for event in pygame.event.get(): ...], leaving at the first
    [return "show_credits"]. *)
Fixpoint handle_events (events : list Event) (g : t) : M (Outcome * t) :=
  match events with
  | [] => ret (Continue, g)
  | event :: rest =>
      match event with
      | QUIT => ret (ShowCredits, g)
      | VIDEORESIZE size =>
          on_videoresize size ;;; handle_events rest g
      | KEYDOWN key =>
          g <- on_keydown key g ;; handle_events rest g
      | MOUSEBUTTONDOWN hit confirm =>
          ' (r, g) <- on_mousebuttondown hit confirm g ;;
          match r with
          | ShowCredits => ret (ShowCredits, g)
          | Continue => handle_events rest g
          end
      | OTHER => handle_events rest g
      end
  end.

End Game.

(** ** Sessions of [snake_rush.py]

    [main] fixes the globals from the display, builds the game, and then
    alternates [handle_events] and [update]; between two calls the
    environment may move. *)

Definition booted (w : World) : Prop :=
  0 <= GRID_WIDTH w /\ 0 <= GRID_HEIGHT w /\
  SCREEN_WIDTH w = GRID_WIDTH w * BLOCK_SIZE /\
  SCREEN_HEIGHT w = GRID_HEIGHT w * BLOCK_SIZE /\
  fullscreen w = false.

Inductive reachable : Game.t -> World -> Prop :=
| reach_boot w g w' :
    booted w -> Game.init w = Ok (g, w') -> reachable g w'
| reach_events g w events r g' w' :
    reachable g w ->
    Game.handle_events events g w = Ok ((r, g'), w') ->
    reachable g' w'
| reach_update g w g' w' :
    reachable g w ->
    Game.update snake_rush g w = Ok (g', w') ->
    reachable g' w'
| reach_env g w t c d :
    reachable g w -> reachable g (with_env t c d w).

(** The loop of [main] after the logo screen, one list of events per
    frame: [handle_events], then [update] (also in the frame that ends the
    loop), then the next frame. *)
Fixpoint main_loop (frames : list (list Game.Event)) (game : Game.t)
  : M Game.t :=
  match frames with
  | [] => ret game
  | events :: rest =>
      ' (result, game) <- Game.handle_events events game ;;
      game <- Game.update snake_rush game ;;
      match result with
      | Game.ShowCredits => ret game
      | Game.Continue => main_loop rest game
      end
  end.

Definition main (frames : list (list Game.Event)) : M Game.t :=
  game <- Game.init ;;
  main_loop frames game.

(** Number of segments of the snake of a game. *)
Definition segments (g : Game.t) : Z := len (Snake.positions (Game.snake g)).
Definition target (g : Game.t) : Z := Snake.length (Game.snake g).

(** ** Logo screen and exit credits of [snake_rush.py]

    Both poll [pygame.time.get_ticks()] and [pygame.event.get()] once per
    frame; a frame is given here as the time read and the events found.
    Key codes are pygame's. *)
Module Pygame.
Definition K_TAB : Z := 9.
Definition K_RETURN : Z := 13.
Definition K_ESCAPE : Z := 27.
Definition K_SPACE : Z := 32.
Definition K_0 : Z := 48.
Definition K_9 : Z := 57.
Definition K_a : Z := 97.
Definition K_z : Z := 122.

Inductive Event :=
| QUIT
| KEYDOWN (key : Z)
| MOUSEBUTTONDOWN
| OTHER.
End Pygame.

Module LogoScreen.

(** ["in"], ["hold"], ["out"] *)
Inductive FadeState := fade_in | fade_hold | fade_out.

(** ["quit"], [True], [False] *)
Inductive Result := Quit | Done | Going.

(** [logos] keeps, for every entry of [self.logos], how many images it
    holds (one, or two for a pair). *)
Record t := mk {
  logos : list nat;
  current_logo : Z;
  logo_duration : Z;
  fade_duration : Z;
  start_time : Z;
  fade_state : FadeState;
  next_logo_time : Z
}.

(** [load_logos]: three items, the second a pair; an item whose image
    fails to load is skipped ([ok1], [ok2], [ok3] say which load); with
    nothing loaded, three text logos stand in. *)
Definition load_logos (ok1 ok2 ok3 : bool) : list nat :=
  let l := (if ok1 then [1%nat] else []) ++ (if ok2 then [2%nat] else [])
           ++ (if ok3 then [1%nat] else []) in
  match l with
  | [] => [1%nat; 1%nat; 1%nat]
  | _ => l
  end.

(** [LogoScreen.__init__], at time [ticks]. *)
Definition init (ticks : Z) (ok1 ok2 ok3 : bool) : t :=
  mk (load_logos ok1 ok2 ok3) 0 4000 1000 ticks fade_in (ticks + 1000).

(** [event.key in self.skip_keys] *)
Definition is_skip_key (key : Z) : bool :=
  (key =? Pygame.K_TAB) || (key =? Pygame.K_SPACE) ||
  (key =? Pygame.K_RETURN) || (key =? Pygame.K_ESCAPE) ||
  ((Pygame.K_a <=? key) && (key <? Pygame.K_z + 1)) ||
  ((Pygame.K_0 <=? key) && (key <? Pygame.K_9 + 1)).

(** The loop over the events: the first decisive event returns. *)
Fixpoint scan (events : list Pygame.Event) : option Result :=
  match events with
  | [] => None
  | Pygame.QUIT :: _ => Some Quit
  | Pygame.KEYDOWN key :: rest =>
      if is_skip_key key then Some Done else scan rest
  | Pygame.MOUSEBUTTONDOWN :: _ => Some Done
  | Pygame.OTHER :: rest => scan rest
  end.

Definition update (current_time : Z) (events : list Pygame.Event) (s : t)
  : Result * t :=
  match scan events with
  | Some r => (r, s)
  | None =>
      match fade_state s with
      | fade_in =>
          if current_time >=? next_logo_time s then
            (Going,
             mk (logos s) (current_logo s) (logo_duration s) (fade_duration s)
                (start_time s) fade_hold
                (current_time + (logo_duration s - 2 * fade_duration s)))
          else (Going, s)
      | fade_hold =>
          if current_time >=? next_logo_time s then
            (Going,
             mk (logos s) (current_logo s) (logo_duration s) (fade_duration s)
                (start_time s) fade_out (current_time + fade_duration s))
          else (Going, s)
      | fade_out =>
          if current_time >=? next_logo_time s then
            let current_logo := current_logo s + 1 in
            if current_logo >=? len (logos s) then
              (Done,
               mk (logos s) current_logo (logo_duration s) (fade_duration s)
                  (start_time s) fade_out (next_logo_time s))
            else
              (Going,
               mk (logos s) current_logo (logo_duration s) (fade_duration s)
                  current_time fade_in (current_time + fade_duration s))
          else (Going, s)
      end
  end.

(** The logo loop of [main]: it ends when [update] answers ["quit"] or
    [True]; the answer comes with the time of that frame.  [None]: the
    frames given ran out first. *)
Fixpoint loop (frames : list (Z * list Pygame.Event)) (s : t)
  : option (Result * Z * t) :=
  match frames with
  | [] => None
  | (current_time, events) :: rest =>
      match update current_time events s with
      | (Going, s') => loop rest s'
      | (r, s') => Some (r, current_time, s')
      end
  end.

End LogoScreen.

(** [show_exit_credits]: the text starts at [SCREEN_HEIGHT] and climbs two
    pixels a frame; the function returns (always ["quit"]) after 14
    seconds, at a decisive event, or once the text is 2000 pixels above
    the top.  The result here is the number of frames drawn before it
    returns; [None]: the frames given ran out first. *)
Fixpoint credits_loop (start_time : Z) (frames : list (Z * list Pygame.Event))
  (rolling_text_y : Z) (drawn : nat) : option nat :=
  match frames with
  | [] => None
  | (current_time, events) :: rest =>
      if current_time - start_time >=? 14000 then Some drawn
      else
        match LogoScreen.scan events with
        | Some _ => Some drawn
        | None =>
            let rolling_text_y := rolling_text_y - 2 in
            if rolling_text_y <? -2000 then Some drawn
            else credits_loop start_time rest rolling_text_y (S drawn)
        end
  end.

Definition show_exit_credits (start_time : Z)
  (frames : list (Z * list Pygame.Event)) : M (option nat) :=
  w <- ask ;;
  ret (credits_loop start_time frames (SCREEN_HEIGHT w) 0).

(** ** Vocabulary of the properties *)

(** The stored collection is sorted by score, highest first. *)
Definition sorted_desc (l : list Entry.t) : Prop :=
  Sorted (fun a b => Entry.score a >= Entry.score b) l.

(** The invariant of the stored collection. *)
Definition lb_inv (lb : LeaderBoard.t) : Prop :=
  len (LeaderBoard.scores lb) <= 10 /\ sorted_desc (LeaderBoard.scores lb).

(** [m] is the minimum stored score of [l]. *)
Definition minimum_score (l : list Entry.t) (m : Z) : Prop :=
  (exists e, In e l /\ Entry.score e = m) /\
  (forall e, In e l -> m <= Entry.score e).

(** How many entries of [l] hold the score [m]. *)
Definition holders (m : Z) (l : list Entry.t) : nat :=
  List.length (filter (fun e => Entry.score e =? m) l).

(** Componentwise negation of a direction. *)
Definition opposite (d : pos) : pos := (- fst d, - snd d).

(** The cell the head enters: head plus committed direction, wrapped. *)
Definition wrapped_head (w : World) (s : Snake.t) (h : pos) : pos :=
  ((fst h + fst (Snake.next_direction s) * BLOCK_SIZE) mod SCREEN_WIDTH w,
   (snd h + snd (Snake.next_direction s) * BLOCK_SIZE) mod SCREEN_HEIGHT w).

(** A position on the grid: both coordinates multiples of [BLOCK_SIZE]. *)
Definition aligned (p : pos) : Prop :=
  (BLOCK_SIZE | fst p) /\ (BLOCK_SIZE | snd p).

(** Cell coordinates of a pixel position, and the cell-equality test the
    design document describes for consumption. *)
Definition cell_of (p : pos) : pos := (fst p / BLOCK_SIZE, snd p / BLOCK_SIZE).
Definition same_cell (head : pos) (food : Food.t) : bool :=
  pos_eqb (cell_of head) (cell_of (Food.position food)).

(** The consumption test of [Game.update] on squares of side [side]:
    [pygame.Rect(p[0], p[1], side, side).colliderect(pygame.Rect(q[0],
    q[1], side, side))].  [BLOCK_SIZE] is 30 in [snake_rush.py] and 40 in
    [snakerush.py]. *)
Definition squares_collide (side : Z) (p q : pos) : bool :=
  Rect.colliderect (Rect.init (fst p) (snd p) side side)
                   (Rect.init (fst q) (snd q) side side).

(** The square of side [side] at [p] lies within what a C [int] holds,
    so that [pygame.Rect] keeps its corners as they are. *)
Definition fits (side : Z) (p : pos) : Prop :=
  (-2147483648 <= fst p /\ fst p + side <= 2147483647) /\
  (-2147483648 <= snd p /\ snd p + side <= 2147483647).

(** Pixel overlap: the squares of side [side] at [p] and [q] share a
    pixel. *)
Definition overlap (side : Z) (p q : pos) : Prop :=
  Z.abs (fst p - fst q) < side /\ Z.abs (snd p - snd q) < side.

(** The grid of blocks of side [side], and the cell of a position. *)
Definition on_grid (side : Z) (p : pos) : Prop :=
  (side | fst p) /\ (side | snd p).
Definition cell (side : Z) (p : pos) : pos := (fst p / side, snd p / side).

(** A tier-1 food, as [Food.__init__(1)] builds it. *)
Definition tier1 (f : Food.t) : Prop :=
  Food.type f = 1 /\ Food.points f = 1.

(** What [handle_events] can do to the game: either it started afresh
    ([restart_game] or [__init__]), or snake, game-over flag and submission
    flag are as they were. *)
Definition fresh (g : Game.t) : Prop :=
  segments g = 1 /\ target g = 1 /\ Game.game_over g = false.
Definition untouched (g g' : Game.t) : Prop :=
  Snake.positions (Game.snake g') = Snake.positions (Game.snake g) /\
  Snake.length (Game.snake g') = Snake.length (Game.snake g) /\
  Snake.score (Game.snake g') = Snake.score (Game.snake g) /\
  Game.game_over g' = Game.game_over g /\
  Game.score_submitted g' = Game.score_submitted g.
Definition handled (g g' : Game.t) : Prop := fresh g' \/ untouched g g'.



(** The one write that can raise: [snakerush.py] saves without [try], so
    submitting a positive score that qualifies raises [IOError] when the
    file cannot be written.  [snake_rush.py] catches the error. *)
Definition save_raises (v : Variant) (g : Game.t) (w : World) : bool :=
  match v with
  | snake_rush => false
  | snakerush =>
      LeaderBoard.is_high_score (Game.leaderboard g)
                                (Snake.score (Game.snake g)) &&
      (Snake.score (Game.snake g) >? 0) && negb (disk_ok w)
  end.


(** The four directions the keys can ask for. *)
Definition unit_dir (d : pos) : Prop :=
  d = (1, 0) \/ d = (-1, 0) \/ d = (0, 1) \/ d = (0, -1).

(** Ticks a food of the given tier lives ([Food.__init__]); tier 1 has no
    countdown. *)
Definition lifetime (food_type : Z) : Z :=
  if food_type =? 2 then 150 else if food_type =? 3 then 100
  else if food_type =? 4 then 80 else 0.

(** A food as the game keeps it on the board: active, on the grid, of
    one of the four tiers with that tier's points, and, for the tiers
    that expire, with some of its countdown left. *)
Definition well_formed_food (f : Food.t) : Prop :=
  Food.active f = true /\ aligned (Food.position f) /\
  ((Food.type f = 1 /\ Food.points f = 1 /\ Food.timer f = 0) \/
   (Food.type f = 2 /\ Food.points f = 2 /\ 0 < Food.timer f <= 150) \/
   (Food.type f = 3 /\ Food.points f = 3 /\ 0 < Food.timer f <= 100) \/
   (Food.type f = 4 /\ Food.points f = 5 /\ 0 < Food.timer f <= 80)).

(** A food as [spawn_food] hands it over for the snake at [positions]:
    well formed with a full countdown, inside the grid of [w], and on no
    segment. *)
Definition fresh_food (w : World) (positions : list pos) (f : Food.t) : Prop :=
  well_formed_food f /\
  Food.timer f = lifetime (Food.type f) /\
  (exists x y, 0 <= x < GRID_WIDTH w /\ 0 <= y < GRID_HEIGHT w /\
               Food.position f = (x * BLOCK_SIZE, y * BLOCK_SIZE)) /\
  ~ In (Food.position f) positions.

(** Directions in a session: both are unit vectors and the pending one
    is not the reverse of the committed one. *)
Definition steering_ok (s : Snake.t) : Prop :=
  unit_dir (Snake.direction s) /\ unit_dir (Snake.next_direction s) /\
  Snake.next_direction s <> opposite (Snake.direction s).

(** Score, length and speed in a session: the score is not negative, the
    snake is never longer than the score plus one, and the speed is the
    one [update_speed] computes from the score. *)
Definition score_ok (g : Game.t) : Prop :=
  0 <= Snake.score (Game.snake g) /\
  Snake.length (Game.snake g) - 1 <= Snake.score (Game.snake g) /\
  Game.current_speed g
  = Z.min (BASE_FPS + Snake.score (Game.snake g) / SPEED_INTERVAL) MAX_FPS.

(** What holds of the game in every reachable session. *)
Definition session_inv (g : Game.t) : Prop :=
  steering_ok (Game.snake g) /\
  Forall well_formed_food (Game.foods g) /\
  score_ok g /\
  lb_inv (Game.leaderboard g) /\
  (Game.score_submitted g = true -> Game.game_over g = true).

(** Points of a tier ([Food.__init__]). *)
Definition tier_points (food_type : Z) : Z :=
  if food_type =? 2 then 2 else if food_type =? 3 then 3
  else if food_type =? 4 then 5 else 1.

(** What eating and spawning leave alone: the menus and flags, the
    leaderboard, and where the snake is and heads. *)
Definition steady (g : Game.t)
  : bool * bool * LeaderBoard.t * bool * bool * bool * bool
    * list pos * pos * pos :=
  (Game.game_over g, Game.paused g, Game.leaderboard g,
   Game.score_submitted g, Game.title_screen g, Game.show_leaderboard g,
   Game.show_options g, Snake.positions (Game.snake g),
   Snake.direction (Game.snake g), Snake.next_direction (Game.snake g)).

(** The food type [spawn_food] picks for the draw [rand] in [1..100]. *)
Definition picked_type (g : Game.t) (rand : Z) : Z :=
  let chances := Game.get_food_spawn_chances g in
  if rand <=? nth 0 chances 0 then 1
  else if rand <=? nth 0 chances 0 + nth 1 chances 0 then 2
  else if rand <=? nth 0 chances 0 + nth 1 chances 0 + nth 2 chances 0 then 3
  else 4.

(** [n] calls of [update()] on a food. *)
Definition food_after (n : nat) (f : Food.t) : Food.t :=
  Nat.iter n Food.update f.

(** The pace of the logo screen started at [t0]: four seconds have gone
    by for every logo already shown, and the current one has its deadline
    no earlier than the fade it is in allows. *)
Definition logo_paced (t0 : Z) (s : LogoScreen.t) : Prop :=
  LogoScreen.logo_duration s = 4000 /\ LogoScreen.fade_duration s = 1000 /\
  0 <= LogoScreen.current_logo s < len (LogoScreen.logos s) /\
  t0 + 4000 * LogoScreen.current_logo s <= LogoScreen.start_time s /\
  LogoScreen.start_time s
  + match LogoScreen.fade_state s with
    | LogoScreen.fade_in => 1000
    | LogoScreen.fade_hold => 3000
    | LogoScreen.fade_out => 4000
    end <= LogoScreen.next_logo_time s.

(** No frame carries an event that ends the screen. *)
Definition undisturbed (frames : list (Z * list Pygame.Event)) : Prop :=
  Forall (fun fr => LogoScreen.scan (snd fr) = None) frames.

(** *** Sample data *)

(** A full board: ten entries, highest first, a single one at the
    minimum 12. *)
Definition full_board : LeaderBoard.t :=
  LeaderBoard.mk
    (map (fun s => Entry.mk s (s + 1) "2024-01-01 12:00")
         [100; 90; 80; 70; 60; 50; 40; 30; 20; 12]).

(** A world for a 20 x 20 grid with the given draws on the tape. *)
Definition sample_world (draws : list Z) : World :=
  mkWorld 20 20 600 600 false draws "2024-01-01 12:00" true Missing [].

(** A game outside every menu, with the given snake and foods. *)
Definition sample_game (positions : list pos) (length score : Z)
  (foods : list Food.t) : Game.t :=
  Game.mk (Snake.mk positions (1, 0) (1, 0) length score) foods
          false false BASE_FPS (LeaderBoard.mk []) false false false false.

(** Length, score and speed of a game: what a pickup changes. *)
Definition progress (g : Game.t) : Z * Z * Z :=
  (Snake.length (Game.snake g), Snake.score (Game.snake g),
   Game.current_speed g).

(** A session of [snake_rush.py] on a 20 x 20 grid in which the first food
    is of tier 2 and lies right in front of the snake: the game once the
    player has left the title screen, after the tick that eats the food,
    and after the tick that follows. *)
Definition cx_world : World := sample_world [85; 11; 10; 0; 5; 5; 0; 3; 3].
Definition cx_w0 : World :=
  mkWorld 20 20 600 600 false [0; 3; 3] "2024-01-01 12:00" true (Stored []) [].
Definition cx_w1 : World :=
  mkWorld 20 20 600 600 false [] "2024-01-01 12:00" true (Stored []) [].
Definition cx_g0 : Game.t :=
  sample_game [(300, 300)] 1 0
              [Food.mk 2 (330, 300) 150 true 2; Food.mk 1 (150, 150) 0 true 1].
Definition cx_g1 : Game.t :=
  sample_game [(330, 300)] 3 2
              [Food.mk 1 (150, 150) 0 true 1; Food.mk 1 (90, 90) 0 true 1].
Definition cx_g2 : Game.t :=
  sample_game [(360, 300); (330, 300)] 3 2
              [Food.mk 1 (150, 150) 0 true 1; Food.mk 1 (90, 90) 0 true 1].

(** A session in which a tier-1 food lies in front of the snake in each of
    the first three ticks. *)
Definition pickup_world : World :=
  sample_world [0; 11; 10; 0; 12; 10; 0; 13; 10; 0; 0; 0; 0; 1; 1].

(** A game that just ended with score 3 and length 4. *)
Definition ended_game : Game.t :=
  Game.set_game_over true
    (sample_game [(390, 300); (360, 300); (330, 300); (330, 330)] 4 3 []).

(** A session of [snake_rush.py] on a 20 x 20 grid in which the window
    is resized to 500 x 400 in the first frame; a food lies in the first
    column of cells but one, in the row of the snake. *)
Definition resize_world : World := sample_world [0; 1; 10; 0; 5; 5; 0; 3; 3].
Definition resize_frames : list (list Game.Event) :=
  [[Game.KEYDOWN Game.K_RETURN; Game.VIDEORESIZE (500, 400)];
   []; []; []; []; []].


(** * Properties *)

(** ** Auxiliary facts *)

Lemma pos_eqb_eq (p q : pos) : pos_eqb p q = true <-> p = q.
Proof.
  destruct p as [a b], q as [c d]; unfold pos_eqb; simpl.
  rewrite andb_true_iff, !Z.eqb_eq. split.
  - intros [-> ->]; reflexivity.
  - intros H; inversion H; auto.
Qed.

Lemma pos_in_In (p : pos) (l : list pos) : pos_in p l = true <-> In p l.
Proof.
  unfold pos_in. rewrite existsb_exists. split.
  - intros (q & Hq & E). apply pos_eqb_eq in E. subst; assumption.
  - intros H. exists p. split; [assumption | now apply pos_eqb_eq].
Qed.

Lemma len_app {A} (l r : list A) : len (l ++ r) = len l + len r.
Proof. unfold len. rewrite length_app. lia. Qed.

Lemma len_cons {A} (a : A) (l : list A) : len (a :: l) = len l + 1.
Proof. unfold len. simpl List.length. lia. Qed.

Lemma len_nonneg {A} (l : list A) : 0 <= len l.
Proof. unfold len. lia. Qed.

Lemma len_removelast {A} (a : A) (l : list A) :
  len (removelast (a :: l)) = len l.
Proof.
  unfold len. f_equal.
  assert (H : a :: l <> []) by discriminate.
  destruct (exists_last H) as (l' & x & E). rewrite E.
  rewrite removelast_last.
  apply (f_equal (@List.length A)) in E.
  rewrite length_app in E. simpl in E. lia.
Qed.

(** [insert(0, new)] followed by the conditional [pop()]. *)
Lemma len_push_pop {A} (new a : A) (l : list A) (n : Z) :
  len (if len (new :: a :: l) >? n
       then removelast (new :: a :: l) else new :: a :: l)
  = if len (a :: l) + 1 >? n then len (a :: l) else len (a :: l) + 1.
Proof.
  rewrite (len_cons new). destruct (len (a :: l) + 1 >? n).
  - apply len_removelast.
  - apply len_cons.
Qed.

(** *** The monad *)

Lemma bind_Ok {A B} (c : M A) (k : A -> M B) w b w' :
  bind c k w = Ok (b, w') ->
  exists a w1, c w = Ok (a, w1) /\ k a w1 = Ok (b, w').
Proof.
  unfold bind. destruct (c w) as [[a w1] | e |]; try discriminate.
  intros H. exists a, w1. auto.
Qed.

Lemma ret_Ok {A} (a b : A) w w' : ret a w = Ok (b, w') -> a = b /\ w = w'.
Proof. unfold ret. intros H; inversion H; auto. Qed.

(** Splits a successful run of monadic code into its successful steps. *)
Ltac run_atom H :=
  match type of H with
  | ret _ _ = Ok _ =>
      let Ha := fresh in
      let Hw := fresh in
      apply ret_Ok in H; destruct H as [Ha Hw];
      symmetry in Ha; symmetry in Hw;
      repeat match goal with
        | E : (_, _) = (_, _) |- _ => inversion E; clear E
        end;
      subst
  | ask _ = Ok _ => unfold ask in H; injection H as <- <-
  | now _ = Ok _ => unfold now in H; injection H as <- <-
  | raise _ _ = Ok _ => discriminate H
  | starve _ = Ok _ => discriminate H
  end.

Ltac run_step H :=
  first
    [ run_atom H
    | match type of H with
      | bind _ _ _ = Ok _ =>
          let a := fresh "a" in
          let w := fresh "w" in
          let H1 := fresh "Hstep" in
          apply bind_Ok in H; destruct H as (a & w & H1 & H);
          repeat run_step H1
      end ].

(** ** Snake *)

(** C1. [Snake.update] on a snake with head [h] and body [body], in a
    window of non-zero size: the call returns, it signals game over
    exactly when the wrapped new head lies in [body] (the positions before
    the move, head excluded), and on that path the segment list is the one
    it was given. *)
Theorem update_game_over_iff_hits_body
  (s : Snake.t) (w : World) (h : pos) (body : list pos) :
  Snake.positions s = h :: body ->
  SCREEN_WIDTH w <> 0 -> SCREEN_HEIGHT w <> 0 ->
  exists over s',
    Snake.update s w = Ok ((over, s'), w) /\
    (over = true <-> In (wrapped_head w s h) body) /\
    (over = true -> Snake.positions s' = Snake.positions s).
Proof.
  intros Hp Hw Hh.
  unfold Snake.update, Snake.get_head_position, bind, ask, py_mod; simpl.
  rewrite Hp. destruct h as [hx hy]. simpl.
  destruct (Snake.next_direction s) as [dx dy] eqn:Hd.
  apply Z.eqb_neq in Hw, Hh. rewrite Hw, Hh. simpl.
  unfold wrapped_head. rewrite Hd. simpl.
  destruct (pos_in _ body) eqn:Hin; simpl.
  - eexists _, _. split; [reflexivity |]. split.
    + split; intros _; [now apply pos_in_In | reflexivity].
    + intros _. simpl. congruence.
  - eexists _, _. split; [reflexivity |]. split.
    + split; [discriminate |]. intros H. apply pos_in_In in H. congruence.
    + discriminate.
Qed.

Lemma update_game_over_iff_hits_body_witness :
  exists over s',
    Snake.update (Snake.mk [(60, 0); (30, 0); (30, 30); (60, 30)]
                           (1, 0) (0, 1) 4 3)
                 (mkWorld 4 4 120 120 false [] EmptyString true Missing [])
    = Ok ((over, s'),
          mkWorld 4 4 120 120 false [] EmptyString true Missing []) /\
    (over = true <->
     In (wrapped_head
           (mkWorld 4 4 120 120 false [] EmptyString true Missing [])
           (Snake.mk [(60, 0); (30, 0); (30, 30); (60, 30)]
                     (1, 0) (0, 1) 4 3) (60, 0))
        [(30, 0); (30, 30); (60, 30)]) /\
    (over = true ->
     Snake.positions s' = [(60, 0); (30, 0); (30, 30); (60, 30)]).
Proof.
  apply (update_game_over_iff_hits_body
           (Snake.mk [(60, 0); (30, 0); (30, 30); (60, 30)] (1, 0) (0, 1) 4 3)
           (mkWorld 4 4 120 120 false [] EmptyString true Missing [])
           (60, 0) [(30, 0); (30, 30); (60, 30)]).
  - reflexivity.
  - simpl; lia.
  - simpl; lia.
Defined.

(** C3. [change_direction r] stores [r] in [next_direction], touching
    nothing else, when [r] is not the opposite of the current direction;
    it returns the snake as it was when [r] is the opposite.  On a snake
    whose pending direction is not already the opposite of its direction,
    [next_direction] ends up equal to [r] exactly in the first case. *)
Theorem change_direction_iff_not_opposite (s : Snake.t) (r : pos) :
  (r <> opposite (Snake.direction s) ->
   Snake.change_direction r s =
   Snake.mk (Snake.positions s) (Snake.direction s) r
            (Snake.length s) (Snake.score s)) /\
  (r = opposite (Snake.direction s) -> Snake.change_direction r s = s) /\
  (Snake.next_direction s <> opposite (Snake.direction s) ->
   (Snake.next_direction (Snake.change_direction r s) = r <->
    r <> opposite (Snake.direction s))).
Proof.
  unfold Snake.change_direction, opposite.
  destruct r as [rx ry]. destruct (Snake.direction s) as [dx dy] eqn:Hd.
  simpl.
  destruct (pos_eqb (rx * -1, ry * -1) (dx, dy)) eqn:E; simpl.
  - apply pos_eqb_eq in E. inversion E; subst.
    assert (R : (rx, ry) = (- (rx * -1), - (ry * -1))) by (f_equal; lia).
    split; [| split].
    + intros H. contradiction.
    + reflexivity.
    + intros Hn. split; intros H; [| contradiction].
      rewrite <- R in Hn. congruence.
  - assert (N : (rx, ry) <> (- dx, - dy)).
    { intros H. inversion H; subst.
      assert (T : pos_eqb (- dx * -1, - dy * -1) (dx, dy) = true)
        by (apply pos_eqb_eq; f_equal; lia).
      congruence. }
    split; [| split].
    + intros _. unfold Snake.set_next_direction. rewrite Hd. reflexivity.
    + intros H. contradiction.
    + intros _. split; intros _; [exact N | reflexivity].
Qed.

Lemma change_direction_iff_not_opposite_witness :
  Snake.change_direction (0, -1) (Snake.mk [(0, 0)] (1, 0) (1, 0) 1 0)
  = Snake.mk [(0, 0)] (1, 0) (0, -1) 1 0 /\
  Snake.change_direction (-1, 0) (Snake.mk [(0, 0)] (1, 0) (0, 1) 1 0)
  = Snake.mk [(0, 0)] (1, 0) (0, 1) 1 0.
Proof.
  split.
  - apply (proj1 (change_direction_iff_not_opposite
                    (Snake.mk [(0, 0)] (1, 0) (1, 0) 1 0) (0, -1))).
    unfold opposite; simpl. intros H; inversion H.
  - apply (proj1 (proj2 (change_direction_iff_not_opposite
                    (Snake.mk [(0, 0)] (1, 0) (0, 1) 1 0) (-1, 0)))).
    reflexivity.
Defined.

(** ** LeaderBoard *)

Section Sorting.
Import LeaderBoard.

Lemma insert_perm e l : Permutation (insert e l) (e :: l).
Proof.
  induction l as [| x r IH]; simpl.
  - apply Permutation_refl.
  - destruct (Entry.score e <? Entry.score x).
    + eapply perm_trans; [apply perm_skip, IH | apply perm_swap].
    + apply Permutation_refl.
Qed.

Lemma sort_desc_perm l : Permutation (sort_desc l) l.
Proof.
  induction l as [| x r IH]; simpl.
  - apply perm_nil.
  - eapply perm_trans; [apply insert_perm | apply perm_skip, IH].
Qed.

Lemma insert_sorted e l : sorted_desc l -> sorted_desc (insert e l).
Proof.
  unfold sorted_desc.
  induction l as [| x r IH]; simpl; intros Hs.
  - repeat constructor.
  - destruct (Entry.score e <? Entry.score x) eqn:E.
    + apply Z.ltb_lt in E. inversion Hs as [| ? ? Hr Hx]; subst.
      constructor; [apply IH, Hr |].
      destruct r as [| y r']; simpl.
      * constructor. lia.
      * destruct (Entry.score e <? Entry.score y).
        -- inversion Hx; subst. constructor. assumption.
        -- constructor. lia.
    + apply Z.ltb_ge in E. constructor; [assumption |].
      constructor. lia.
Qed.

Lemma sort_desc_sorted l : sorted_desc (sort_desc l).
Proof.
  induction l as [| x r IH]; simpl.
  - constructor.
  - apply insert_sorted, IH.
Qed.

Lemma sorted_desc_firstn n l : sorted_desc l -> sorted_desc (firstn n l).
Proof.
  unfold sorted_desc. revert l.
  induction n as [| n IH]; intros [| x r] Hs; simpl; try constructor.
  - apply IH. now inversion Hs.
  - inversion Hs as [| ? ? _ Hx]; subst.
    destruct r as [| y r'], n; simpl; constructor.
    now inversion Hx.
Qed.

(** In a list sorted highest first, whatever stands in front scores at
    least as much as whatever stands behind. *)
Lemma sorted_desc_app a b :
  sorted_desc (a ++ b) ->
  forall y x, In y a -> In x b -> Entry.score x <= Entry.score y.
Proof.
  intros Hs. apply Sorted_StronglySorted in Hs.
  2:{ intros p q r; lia. }
  induction a as [| a0 a IH]; intros y x Hy Hx; [contradiction |].
  simpl in Hs. apply StronglySorted_inv in Hs. destruct Hs as [Hs Hall].
  destruct Hy as [-> | Hy].
  - rewrite Forall_forall in Hall.
    specialize (Hall x (in_or_app _ _ _ (or_intror Hx))). lia.
  - now apply IH.
Qed.

Lemma holders_app m a b : holders m (a ++ b) = (holders m a + holders m b)%nat.
Proof. unfold holders. now rewrite filter_app, length_app. Qed.

Lemma holders_perm m a b : Permutation a b -> holders m a = holders m b.
Proof.
  unfold holders. induction 1; simpl.
  - reflexivity.
  - destruct (Entry.score x =? m); simpl; congruence.
  - destruct (Entry.score x =? m), (Entry.score y =? m); reflexivity.
  - congruence.
Qed.

Lemma holders_zero m l :
  holders m l = 0%nat -> forall e, In e l -> Entry.score e <> m.
Proof.
  unfold holders. induction l as [| x r IH]; simpl; intros H e He.
  - contradiction.
  - destruct (Entry.score x =? m) eqn:E; [discriminate |].
    destruct He as [-> | He]; [now apply Z.eqb_neq | now apply IH].
Qed.

Lemma holders_none m l :
  (forall e, In e l -> Entry.score e <> m) -> holders m l = 0%nat.
Proof.
  unfold holders. induction l as [| x r IH]; simpl; intros H.
  - reflexivity.
  - destruct (Entry.score x =? m) eqn:E.
    + apply Z.eqb_eq in E. exfalso. apply (H x); auto.
    + apply IH. intros e He. apply H. auto.
Qed.

Lemma holders_pos m l e :
  In e l -> Entry.score e = m -> (0 < holders m l)%nat.
Proof.
  unfold holders. induction l as [| x r IH]; simpl; intros He Hm.
  - contradiction.
  - destruct He as [-> | He].
    + rewrite (proj2 (Z.eqb_eq _ _) Hm). simpl. lia.
    + destruct (Entry.score x =? m); simpl; [lia | now apply IH].
Qed.

Lemma min_score_le_acc l : forall a,
  fold_left (fun m x => Z.min m (Entry.score x)) l a <= a.
Proof.
  induction l as [| x r IH]; intros a; simpl; [lia |].
  specialize (IH (Z.min a (Entry.score x))). lia.
Qed.

Lemma min_score_lower l : forall a e,
  In e l -> fold_left (fun m x => Z.min m (Entry.score x)) l a
            <= Entry.score e.
Proof.
  induction l as [| x r IH]; intros a e He; simpl; [contradiction |].
  destruct He as [-> | He].
  - pose proof (min_score_le_acc r (Z.min a (Entry.score e))). lia.
  - now apply IH.
Qed.

Lemma min_score_attained l : forall a,
  fold_left (fun m x => Z.min m (Entry.score x)) l a = a \/
  exists e, In e l /\
    fold_left (fun m x => Z.min m (Entry.score x)) l a = Entry.score e.
Proof.
  induction l as [| x r IH]; intros a; simpl; [now left |].
  destruct (IH (Z.min a (Entry.score x))) as [E | (e & He & E)].
  - rewrite E. destruct (Z.min_spec a (Entry.score x)) as [[_ ->] | [_ ->]].
    + now left.
    + right. exists x. auto.
  - right. exists e. auto.
Qed.

Lemma min_score_spec e r : minimum_score (e :: r) (min_score e r).
Proof.
  unfold minimum_score, min_score. split.
  - destruct (min_score_attained r (Entry.score e)) as [E | (x & Hx & E)].
    + exists e. split; [now left | now rewrite E].
    + exists x. split; [now right | now rewrite E].
  - intros x [<- | Hx].
    + apply min_score_le_acc.
    + now apply min_score_lower.
Qed.

Lemma minimum_score_unique l m m' :
  minimum_score l m -> minimum_score l m' -> m = m'.
Proof.
  intros [(e & He & E) L] [(e' & He' & E') L'].
  specialize (L e' He'). specialize (L' e He). lia.
Qed.

End Sorting.

Lemma firstn_10_if (l : list Entry.t) :
  (if len l >? 10 then firstn 10 l else l) = firstn 10 l.
Proof.
  destruct (len l >? 10) eqn:E; [reflexivity |].
  symmetry. apply firstn_all2. unfold len in E.
  destruct (Z.gtb_spec (Z.of_nat (List.length l)) 10); [discriminate | lia].
Qed.

(** [add_score] of [snake_rush.py] never raises: it returns a leaderboard
    whatever it is given, and cutting to ten entries is [firstn 10] in
    both cases. *)
Lemma add_score_runs lb s L w :
  LeaderBoard.add_score lb s L w =
  if s >? 0 then
    Ok (LeaderBoard.mk
          (firstn 10 (LeaderBoard.sort_desc
                        (LeaderBoard.scores lb ++ [Entry.mk s L (clock w)]))),
        if disk_ok w
        then with_file
               (Stored (firstn 10
                          (LeaderBoard.sort_desc
                             (LeaderBoard.scores lb
                                ++ [Entry.mk s L (clock w)])))) w
        else w)
  else Ok (lb, w).
Proof.
  unfold LeaderBoard.add_score. destruct (s >? 0); [| reflexivity].
  unfold bind, now, LeaderBoard.save_scores, modify, ret; simpl.
  rewrite firstn_10_if. reflexivity.
Qed.

(** C5. [is_high_score s] holds exactly when fewer than 10 entries are
    stored or [s] is strictly above the minimum stored score.  On a board
    of 10 entries with minimum 12, score 12 does not qualify, score 13
    does, and when a single entry holds 12, [add_score 13 L] returns a
    board of 10 entries that holds the new entry and no entry of score 12
    any more. *)
Theorem is_high_score_iff (lb : LeaderBoard.t) (s : Z) :
  (LeaderBoard.is_high_score lb s = true <->
   len (LeaderBoard.scores lb) < 10 \/
   exists m, minimum_score (LeaderBoard.scores lb) m /\ m < s) /\
  (len (LeaderBoard.scores lb) = 10 ->
   minimum_score (LeaderBoard.scores lb) 12 ->
   LeaderBoard.is_high_score lb 12 = false /\
   LeaderBoard.is_high_score lb 13 = true /\
   (holders 12 (LeaderBoard.scores lb) = 1%nat ->
    forall L w, exists lb' w',
      LeaderBoard.add_score lb 13 L w = Ok (lb', w') /\
      len (LeaderBoard.scores lb') = 10 /\
      (exists e, In e (LeaderBoard.scores lb') /\ Entry.score e = 13 /\
                 Entry.length e = L) /\
      forall e, In e (LeaderBoard.scores lb') -> 12 < Entry.score e)).
Proof.
  assert (Hiff : forall x,
    LeaderBoard.is_high_score lb x = true <->
    len (LeaderBoard.scores lb) < 10 \/
    exists m, minimum_score (LeaderBoard.scores lb) m /\ m < x).
  { intros x. unfold LeaderBoard.is_high_score.
    destruct (LeaderBoard.scores lb) as [| e r] eqn:El.
    - split; [intros _; left; unfold len; simpl; lia | reflexivity].
    - rewrite orb_true_iff, Z.ltb_lt, Z.gtb_lt.
      pose proof (min_score_spec e r) as Hm.
      split; intros [H | H]; auto.
      + right. exists (LeaderBoard.min_score e r). auto.
      + right. destruct H as (m & Hm' & Hlt).
        rewrite (minimum_score_unique _ _ _ Hm Hm'). exact Hlt. }
  split; [apply Hiff |].
  intros Hlen Hmin.
  assert (H12 : LeaderBoard.is_high_score lb 12 = false).
  { apply not_true_is_false. intros H. apply Hiff in H.
    destruct H as [H | (m & Hm & Hlt)]; [lia |].
    pose proof (minimum_score_unique _ _ _ Hmin Hm). lia. }
  assert (H13 : LeaderBoard.is_high_score lb 13 = true).
  { apply Hiff. right. exists 12. split; [assumption | lia]. }
  split; [exact H12 | split; [exact H13 |]].
  intros Hone L w.
  rewrite add_score_runs.
  change (13 >? 0) with true. cbv iota.
  set (new := Entry.mk 13 L (clock w)).
  set (l := LeaderBoard.sort_desc (LeaderBoard.scores lb ++ [new])).
  eexists _, _. split; [reflexivity |]. cbn [LeaderBoard.scores].
  pose proof (sort_desc_perm (LeaderBoard.scores lb ++ [new])) as Hperm.
  fold l in Hperm.
  assert (Hl : List.length l = 11%nat).
  { rewrite (Permutation_length Hperm), length_app. simpl.
    unfold len in Hlen. lia. }
  assert (Hge : forall e, In e l -> 12 <= Entry.score e).
  { intros e He. apply (Permutation_in _ Hperm) in He.
    apply in_app_or in He. destruct He as [He | [<- | []]].
    - now apply (proj2 Hmin).
    - simpl. lia. }
  assert (Hh : holders 12 l = 1%nat).
  { rewrite (holders_perm 12 _ _ Hperm), holders_app, Hone. reflexivity. }
  pose proof (firstn_skipn 10 l) as Hsplit.
  assert (Hk : List.length (skipn 10 l) = 1%nat)
    by (rewrite length_skipn; lia).
  destruct (skipn 10 l) as [| x [| ? ?]] eqn:Ek; try discriminate. clear Hk.
  assert (Hs : sorted_desc (firstn 10 l ++ [x])).
  { rewrite Hsplit. apply sort_desc_sorted. }
  assert (Hxl : In x l) by (rewrite <- Hsplit; apply in_or_app; simpl; auto).
  assert (Hx : Entry.score x = 12).
  { pose proof (Hge x Hxl) as Hx12.
    destruct (Z.eq_dec (Entry.score x) 12) as [E | N]; [exact E | exfalso].
    assert (Z : holders 12 l = 0%nat).
    { apply holders_none. intros e He. rewrite <- Hsplit in He.
      apply in_app_or in He. destruct He as [He | [<- | []]]; [| exact N].
      pose proof (sorted_desc_app _ _ Hs e x He (or_introl eq_refl)). lia. }
    lia. }
  assert (Hf : holders 12 (firstn 10 l) = 0%nat).
  { rewrite <- Hsplit, holders_app in Hh.
    assert (holders 12 [x] = 1%nat)
      by (unfold holders; simpl; rewrite Hx; reflexivity).
    lia. }
  split; [| split].
  - unfold len. rewrite length_firstn. lia.
  - assert (Hn : In new l).
    { apply (Permutation_in _ (Permutation_sym Hperm)).
      apply in_or_app. simpl. auto. }
    rewrite <- Hsplit in Hn. apply in_app_or in Hn.
    destruct Hn as [Hn | [E | []]].
    + exists new. auto.
    + subst x. simpl in Hx. discriminate.
  - intros e He.
    pose proof (holders_zero 12 _ Hf e He).
    assert (In e l) by (rewrite <- Hsplit; apply in_or_app; auto).
    pose proof (Hge e H0). lia.
Qed.

Lemma is_high_score_iff_witness :
  LeaderBoard.is_high_score full_board 12 = false /\
  LeaderBoard.is_high_score full_board 13 = true /\
  exists lb' w',
    LeaderBoard.add_score full_board 13 4 (sample_world []) = Ok (lb', w') /\
    forall e, In e (LeaderBoard.scores lb') -> 12 < Entry.score e.
Proof.
  destruct (proj2 (is_high_score_iff full_board 0)) as (H12 & H13 & Hadd).
  - reflexivity.
  - split.
    + eexists. split; [do 9 right; left; reflexivity | reflexivity].
    + intros e He. simpl in He.
      repeat (destruct He as [<- | He]; [simpl; lia |]). contradiction.
  - split; [exact H12 | split; [exact H13 |]].
    destruct (Hadd eq_refl 4 (sample_world [])) as (lb' & w' & E & _ & _ & H).
    exists lb', w'. split; assumption.
Defined.

(** C6. On a board that has at most 10 entries sorted highest first,
    [add_score s L] returns; the board it returns again has at most 10
    entries sorted highest first; for [s <= 0] board and file are
    untouched; for [s > 0] the new list is the first ten of the old
    entries and the new one, sorted highest first. *)
Theorem add_score_keeps_invariant (lb : LeaderBoard.t) (s L : Z) (w : World) :
  lb_inv lb ->
  exists lb' w',
    LeaderBoard.add_score lb s L w = Ok (lb', w') /\
    lb_inv lb' /\
    (s <= 0 -> lb' = lb /\ w' = w) /\
    (0 < s ->
     exists l,
       Permutation l (LeaderBoard.scores lb ++ [Entry.mk s L (clock w)]) /\
       sorted_desc l /\
       LeaderBoard.scores lb' = firstn 10 l).
Proof.
  intros Hinv. rewrite add_score_runs.
  destruct (Z.gtb_spec s 0) as [Hs | Hs].
  - eexists _, _. split; [reflexivity |]. cbn [LeaderBoard.scores].
    split; [| split].
    + split; cbn [LeaderBoard.scores].
      * unfold len. rewrite length_firstn. lia.
      * apply sorted_desc_firstn, sort_desc_sorted.
    + intros H. lia.
    + intros _. eexists. split; [apply sort_desc_perm |].
      split; [apply sort_desc_sorted | reflexivity].
  - exists lb, w. split; [reflexivity |]. split; [exact Hinv |].
    split; [auto | intros H; lia].
Qed.

Lemma add_score_keeps_invariant_witness :
  exists lb' w',
    LeaderBoard.add_score full_board 0 7 (sample_world []) = Ok (lb', w') /\
    lb_inv lb' /\ lb' = full_board.
Proof.
  destruct (add_score_keeps_invariant full_board 0 7 (sample_world []))
    as (lb' & w' & E & Hinv & Hle & _).
  - split.
    + unfold len; simpl; lia.
    + unfold sorted_desc, full_board; simpl.
      repeat (constructor; simpl; try lia).
  - exists lb', w'. split; [exact E | split; [exact Hinv |]].
    apply Hle. lia.
Defined.

(** C10. On an empty board every score qualifies, zero and negative ones
    included, while [add_score] of a score [s <= 0] returns the board (and
    the file) as they were. *)
Theorem empty_board_qualifies_without_entry (lb : LeaderBoard.t) :
  LeaderBoard.scores lb = [] ->
  (forall s, LeaderBoard.is_high_score lb s = true) /\
  (forall s L w, s <= 0 ->
     LeaderBoard.add_score lb s L w = Ok (lb, w) /\
     LeaderBoard.scores lb = []).
Proof.
  intros He. split.
  - intros s. unfold LeaderBoard.is_high_score. rewrite He. reflexivity.
  - intros s L w Hs. split; [| exact He].
    rewrite add_score_runs.
    destruct (Z.gtb_spec s 0); [lia | reflexivity].
Qed.

Lemma empty_board_qualifies_without_entry_witness :
  LeaderBoard.is_high_score (LeaderBoard.mk []) (-5) = true /\
  LeaderBoard.add_score (LeaderBoard.mk []) (-5) 1 (sample_world [])
  = Ok (LeaderBoard.mk [], sample_world []).
Proof.
  destruct (empty_board_qualifies_without_entry (LeaderBoard.mk []) eq_refl)
    as [Hq Ha].
  split; [apply Hq | apply Ha; lia].
Defined.

(** ** Spawn and difficulty policy *)

(** C4. [get_food_spawn_chances] is the four-band step table of the
    design document, and its four percentages add up to 100 at every
    score. *)
Theorem spawn_chances_table (g : Game.t) :
  let s := Snake.score (Game.snake g) in
  (s < 10 -> Game.get_food_spawn_chances g = [85; 15; 0; 0]) /\
  (10 <= s <= 24 -> Game.get_food_spawn_chances g = [70; 25; 5; 0]) /\
  (25 <= s <= 49 -> Game.get_food_spawn_chances g = [60; 25; 12; 3]) /\
  (50 <= s -> Game.get_food_spawn_chances g = [50; 30; 15; 5]) /\
  List.length (Game.get_food_spawn_chances g) = 4%nat /\
  fold_right Z.add 0 (Game.get_food_spawn_chances g) = 100.
Proof.
  unfold Game.get_food_spawn_chances. cbv zeta.
  destruct (Z.ltb_spec (Snake.score (Game.snake g)) 10);
    [| destruct (Z.ltb_spec (Snake.score (Game.snake g)) 25);
       [| destruct (Z.ltb_spec (Snake.score (Game.snake g)) 50)]];
    repeat split; intros; try reflexivity; lia.
Qed.

Lemma spawn_chances_table_witness :
  Game.get_food_spawn_chances (sample_game [(0, 0)] 1 9 []) = [85; 15; 0; 0] /\
  Game.get_food_spawn_chances (sample_game [(0, 0)] 1 10 []) = [70; 25; 5; 0] /\
  Game.get_food_spawn_chances (sample_game [(0, 0)] 1 24 []) = [70; 25; 5; 0] /\
  Game.get_food_spawn_chances (sample_game [(0, 0)] 1 25 []) = [60; 25; 12; 3] /\
  Game.get_food_spawn_chances (sample_game [(0, 0)] 1 49 []) = [60; 25; 12; 3] /\
  Game.get_food_spawn_chances (sample_game [(0, 0)] 1 50 []) = [50; 30; 15; 5].
Proof.
  pose proof (spawn_chances_table (sample_game [(0, 0)] 1 9 [])) as T9.
  pose proof (spawn_chances_table (sample_game [(0, 0)] 1 10 [])) as T10.
  pose proof (spawn_chances_table (sample_game [(0, 0)] 1 24 [])) as T24.
  pose proof (spawn_chances_table (sample_game [(0, 0)] 1 25 [])) as T25.
  pose proof (spawn_chances_table (sample_game [(0, 0)] 1 49 [])) as T49.
  pose proof (spawn_chances_table (sample_game [(0, 0)] 1 50 [])) as T50.
  cbv zeta in *.
  refine (conj _ (conj _ (conj _ (conj _ (conj _ _))))).
  - apply (proj1 T9). simpl; lia.
  - apply (proj1 (proj2 T10)). simpl; lia.
  - apply (proj1 (proj2 T24)). simpl; lia.
  - apply (proj1 (proj2 (proj2 T25))). simpl; lia.
  - apply (proj1 (proj2 (proj2 T49))). simpl; lia.
  - apply (proj1 (proj2 (proj2 (proj2 T50)))). simpl; lia.
Defined.

(** ** Consumption test *)

Lemma c_int_id (z : Z) : -2147483648 <= z <= 2147483647 -> c_int z = z.
Proof. intros H. unfold c_int. rewrite Z.mod_small; lia. Qed.

(** In range, [colliderect] of two squares is the overlap of their open
    interiors. *)
Lemma squares_collide_overlap (side : Z) (p q : pos) :
  0 < side <= 2147483647 -> fits side p -> fits side q ->
  (squares_collide side p q = true <-> overlap side p q).
Proof.
  destruct p as [px py], q as [qx qy].
  unfold fits, overlap, squares_collide, Rect.colliderect, Rect.init.
  cbn [fst snd Rect.x Rect.y Rect.w Rect.h].
  intros Hs [[Hp1 Hp2] [Hp3 Hp4]] [[Hq1 Hq2] [Hq3 Hq4]].
  rewrite !(c_int_id px), !(c_int_id py), !(c_int_id qx), !(c_int_id qy),
    !(c_int_id side) by lia.
  rewrite !(c_int_id (px + side)), !(c_int_id (py + side)),
    !(c_int_id (qx + side)), !(c_int_id (qy + side)) by lia.
  replace (side =? 0) with false by (symmetry; apply Z.eqb_neq; lia).
  cbn [orb].
  rewrite !andb_true_iff, !Z.ltb_lt, !Z.gtb_lt. lia.
Qed.

(** Two multiples of [side] less than [side] apart are equal. *)
Lemma multiples_apart (side a b : Z) :
  0 < side -> (side | a) -> (side | b) -> Z.abs (a - b) < side -> a = b.
Proof.
  intros Hs [i ->] [k ->] H.
  assert (E : i = k) by nia. now subst.
Qed.

Lemma overlap_on_grid (side : Z) (p q : pos) :
  0 < side -> on_grid side p -> on_grid side q ->
  (overlap side p q <-> p = q).
Proof.
  destruct p as [px py], q as [qx qy]. unfold on_grid, overlap.
  cbn [fst snd]. intros Hs [Hpx Hpy] [Hqx Hqy]. split.
  - intros [Hx Hy]. f_equal; now apply (multiples_apart side).
  - intros E. injection E as -> ->. rewrite !Z.sub_diag. simpl. lia.
Qed.

Lemma cell_on_grid (side : Z) (p q : pos) :
  0 < side -> on_grid side p -> on_grid side q ->
  (pos_eqb (cell side p) (cell side q) = true <-> p = q).
Proof.
  destruct p as [px py], q as [qx qy]. unfold on_grid, cell.
  cbn [fst snd]. intros Hs [[i ->] [j ->]] [[k ->] [l ->]].
  rewrite pos_eqb_eq, !Z.div_mul by lia.
  split; intros H; injection H as H1 H2.
  - now subst.
  - f_equal; nia.
Qed.

(** C8, as stated, fails: the test is not a cell match for every head
    the session produces.  In the session [resize_world] the window is
    500 pixels wide after the resize, so the head leaves the grid when it
    wraps from 480 to 10; there it overlaps the food at (30, 300), which
    lies in the next cell, and the tick eats it. *)
Lemma resized_window_eats_across_cells :
  exists g w g' w',
    main resize_frames resize_world = Ok (g, w) /\
    Snake.positions (Game.snake g) = [(480, 300)] /\
    Game.foods g = [Food.mk 1 (30, 300) 0 true 1;
                    Food.mk 1 (150, 150) 0 true 1] /\
    Game.update snake_rush g w = Ok (g', w') /\
    Snake.positions (Game.snake g') = [(10, 300)] /\
    Snake.score (Game.snake g') = 1 /\
    Game.foods g' = [Food.mk 1 (150, 150) 0 true 1;
                     Food.mk 1 (90, 90) 0 true 1] /\
    Game.eats (10, 300) (Food.mk 1 (30, 300) 0 true 1) = true /\
    same_cell (10, 300) (Food.mk 1 (30, 300) 0 true 1) = false /\
    cell_of (10, 300) = (0, 10) /\ cell_of (30, 300) = (1, 10).
Proof.
  destruct (main resize_frames resize_world) as [[g w] | e |] eqn:E;
    try (vm_compute in E; discriminate).
  vm_compute in E. injection E as <- <-.
  match goal with
  | |- exists g w g' w', _ = Ok (g, w) /\ _ =>
      eexists _, _, _, _; split; [reflexivity |]
  end.
  repeat (split; [vm_compute; reflexivity |]). vm_compute. reflexivity.
Qed.

(** C8, amended.  The consumption test of [Game.update] is a pixel test:
    for squares of any side ([BLOCK_SIZE] is 30 in [snake_rush.py], 40 in
    [snakerush.py]) that fit C ints, [colliderect] succeeds exactly when
    head and food are less than a side apart on both axes.  Whenever both
    positions are multiples of the side it gives the answer of the
    cell-equality test and succeeds exactly when head and food are at the
    same position.  [Game.eats] is this test on [BLOCK_SIZE] squares for
    an active food. *)
Theorem eats_iff_same_cell (side : Z) (head : pos) (food : Food.t) :
  0 < side <= 2147483647 ->
  fits side head -> fits side (Food.position food) ->
  Food.active food = true ->
  (squares_collide side head (Food.position food) = true
   <-> overlap side head (Food.position food)) /\
  (on_grid side head -> on_grid side (Food.position food) ->
   squares_collide side head (Food.position food)
   = pos_eqb (cell side head) (cell side (Food.position food)) /\
   (squares_collide side head (Food.position food) = true
    <-> head = Food.position food)) /\
  (side = BLOCK_SIZE ->
   Game.eats head food = squares_collide side head (Food.position food) /\
   (aligned head -> aligned (Food.position food) ->
    Game.eats head food = same_cell head food /\
    (Game.eats head food = true <-> head = Food.position food))).
Proof.
  intros Hs Hh Hf Ha.
  pose proof (squares_collide_overlap side head (Food.position food)
                Hs Hh Hf) as Ho.
  assert (Hg : on_grid side head -> on_grid side (Food.position food) ->
               squares_collide side head (Food.position food)
               = pos_eqb (cell side head) (cell side (Food.position food)) /\
               (squares_collide side head (Food.position food) = true
                <-> head = Food.position food)).
  { intros Gh Gf.
    assert (E : squares_collide side head (Food.position food) = true
                <-> head = Food.position food).
    { rewrite Ho. apply overlap_on_grid; [lia | assumption | assumption]. }
    split; [| exact E].
    apply eq_true_iff_eq. rewrite E. symmetry.
    apply cell_on_grid; [lia | assumption | assumption]. }
  split; [exact Ho |]. split; [exact Hg |].
  intros ->.
  assert (Ee : Game.eats head food
               = squares_collide BLOCK_SIZE head (Food.position food)).
  { unfold Game.eats, Game.head_rect, Game.food_rect, squares_collide.
    rewrite Ha. apply andb_true_r. }
  split; [exact Ee |].
  intros Gh Gf. rewrite Ee. exact (Hg Gh Gf).
Qed.

Lemma eats_iff_same_cell_witness :
  Game.eats (330, 300) (Food.mk 1 (330, 300) 0 true 1) = true /\
  Game.eats (330, 300) (Food.mk 1 (360, 300) 0 true 1) = false /\
  squares_collide 40 (320, 280) (360, 280) = false.
Proof.
  assert (F : forall side x y,
             0 <= x <= 1000 -> 0 <= y <= 1000 -> 0 < side <= 100 ->
             fits side (x, y)).
  { intros side x y Hx Hy Hs. unfold fits. cbn [fst snd]. lia. }
  refine (conj _ (conj _ _)).
  - pose proof (eats_iff_same_cell 30 (330, 300)
                  (Food.mk 1 (330, 300) 0 true 1)
                  ltac:(lia)
                  (F 30 330 300 ltac:(lia) ltac:(lia) ltac:(lia))
                  (F 30 330 300 ltac:(lia) ltac:(lia) ltac:(lia)) eq_refl)
      as (_ & _ & T).
    destruct (T eq_refl) as (_ & G).
    apply (proj2 (G (conj (Z.divide_factor_l 30 11) (Z.divide_factor_l 30 10))
                    (conj (Z.divide_factor_l 30 11)
                          (Z.divide_factor_l 30 10)))).
    reflexivity.
  - pose proof (eats_iff_same_cell 30 (330, 300)
                  (Food.mk 1 (360, 300) 0 true 1)
                  ltac:(lia)
                  (F 30 330 300 ltac:(lia) ltac:(lia) ltac:(lia))
                  (F 30 360 300 ltac:(lia) ltac:(lia) ltac:(lia)) eq_refl)
      as (_ & _ & T).
    destruct (T eq_refl) as (_ & G).
    rewrite (proj1 (G (conj (Z.divide_factor_l 30 11)
                            (Z.divide_factor_l 30 10))
                      (conj (Z.divide_factor_l 30 12)
                            (Z.divide_factor_l 30 10)))).
    reflexivity.
  - pose proof (eats_iff_same_cell 40 (320, 280)
                  (Food.mk 1 (360, 280) 0 true 1)
                  ltac:(lia)
                  (F 40 320 280 ltac:(lia) ltac:(lia) ltac:(lia))
                  (F 40 360 280 ltac:(lia) ltac:(lia) ltac:(lia)) eq_refl)
      as (_ & G & _).
    cbn [Food.position] in G.
    rewrite (proj1 (G (conj (Z.divide_factor_l 40 8) (Z.divide_factor_l 40 7))
                      (conj (Z.divide_factor_l 40 9)
                            (Z.divide_factor_l 40 7)))).
    reflexivity.
Defined.

(** Where the grid hypothesis comes from: food is always placed on the
    grid, and the head stays on it as long as the window measures a whole
    number of blocks each way (which [main] arranges, and a resize may
    undo). *)
Lemma randomize_position_aligned f w f' w' :
  Food.randomize_position f w = Ok (f', w') -> aligned (Food.position f').
Proof.
  unfold Food.randomize_position. intros H. repeat run_step H.
  split; simpl; apply Z.divide_factor_r.
Qed.

Lemma mod_keeps_divide (a b : Z) :
  (BLOCK_SIZE | a) -> (BLOCK_SIZE | b) -> (BLOCK_SIZE | a mod b).
Proof.
  intros Ha Hb. destruct (Z.eq_dec b 0) as [-> | Hn].
  - now rewrite Z.mod_0_r.
  - rewrite Z.mod_eq by exact Hn.
    apply Z.divide_sub_r; [exact Ha | now apply Z.divide_mul_l].
Qed.

Lemma wrapped_head_aligned w s h :
  (BLOCK_SIZE | SCREEN_WIDTH w) -> (BLOCK_SIZE | SCREEN_HEIGHT w) ->
  aligned h -> aligned (wrapped_head w s h).
Proof.
  intros Hw Hh [Hx Hy]. unfold wrapped_head.
  split; simpl; apply mod_keeps_divide; try assumption;
    (apply Z.divide_add_r; [assumption | apply Z.divide_factor_r]).
Qed.

(** The grid hypothesis of C8 is needed: squares that are off the grid
    overlap without sharing a cell. *)
Remark eats_off_grid :
  Game.eats (20, 0) (Food.mk 1 (30, 0) 0 true 1) = true /\
  same_cell (20, 0) (Food.mk 1 (30, 0) 0 true 1) = false.
Proof. split; reflexivity. Qed.

(** So is the range hypothesis: the right edge of a square that ends
    beyond [2^31 - 1] wraps around to the far left, and the square then
    collides with squares of its row that are on the grid and far away. *)
Remark eats_beyond_c_int :
  aligned (2147483640, 300) /\ aligned (330, 300) /\
  ~ fits BLOCK_SIZE (2147483640, 300) /\
  Game.eats (2147483640, 300) (Food.mk 1 (330, 300) 0 true 1) = true /\
  same_cell (2147483640, 300) (Food.mk 1 (330, 300) 0 true 1) = false.
Proof.
  split; [split; [exists 71582788 | exists 10]; reflexivity |].
  split; [split; [exists 11 | exists 10]; reflexivity |].
  split; [| split; reflexivity].
  unfold fits, BLOCK_SIZE. cbn [fst snd]. lia.
Qed.

(** ** Game: what each operation leaves alone *)

Lemma randint_calls lo hi w a w' :
  randint lo hi w = Ok (a, w') -> calls w' = calls w.
Proof.
  unfold randint. destruct (hi <? lo); [discriminate |].
  destruct (tape w); [discriminate |].
  intros H; inversion H; reflexivity.
Qed.

Lemma randomize_position_Ok f w f' w' :
  Food.randomize_position f w = Ok (f', w') ->
  calls w' = calls w /\ Food.type f' = Food.type f /\
  Food.points f' = Food.points f.
Proof.
  unfold Food.randomize_position. intros H.
  repeat run_step H.
  repeat match goal with
    | R : randint _ _ _ = Ok _ |- _ => apply randint_calls in R
    end.
  simpl. split; [congruence | auto].
Qed.

Lemma food_init_Ok k w f w' :
  Food.init k w = Ok (f, w') ->
  calls w' = calls w /\ (k = 1 -> tier1 f).
Proof.
  unfold Food.init. intros H. run_step H.
  apply randomize_position_Ok in Hstep. destruct Hstep as (Hc & _ & _).
  split.
  - destruct (k =? 2); [| destruct (k =? 3); [| destruct (k =? 4)]];
      run_step H; exact Hc.
  - intros ->. simpl in H. run_step H. split; reflexivity.
Qed.

Lemma reroll_calls fuel ps : forall f w f' w',
  Game.reroll fuel ps f w = Ok (f', w') -> calls w' = calls w.
Proof.
  induction fuel as [| n IH]; intros f w f' w' H; simpl in H;
    destruct (pos_in (Food.position f) ps).
  - discriminate.
  - now run_step H.
  - run_step H. apply randomize_position_Ok in Hstep.
    apply IH in H. destruct Hstep as [Hc _]. congruence.
  - now run_step H.
Qed.

Lemma spawn_food_Ok g w g' w' :
  Game.spawn_food g w = Ok (g', w') ->
  (exists f, g' = Game.set_foods (Game.foods g ++ [f]) g) /\
  calls w' = calls w.
Proof.
  unfold Game.spawn_food. intros H. repeat run_step H.
  repeat match goal with
    | R : randint _ _ _ = Ok _ |- _ => apply randint_calls in R
    | R : Food.init _ _ = Ok _ |- _ =>
        apply food_init_Ok in R; destruct R as [R _]
    | R : Game.reroll _ _ _ _ = Ok _ |- _ => apply reroll_calls in R
    end.
  split; [eexists; reflexivity | congruence].
Qed.

Lemma snake_reset_Ok w s w' :
  Snake.reset w = Ok (s, w') ->
  w' = w /\ len (Snake.positions s) = 1 /\ Snake.length s = 1 /\
  Snake.score s = 0.
Proof.
  unfold Snake.reset. intros H. repeat run_step H. auto.
Qed.

Lemma save_scores_calls lb w u w' :
  LeaderBoard.save_scores lb w = Ok (u, w') -> calls w' = calls w.
Proof.
  unfold LeaderBoard.save_scores, modify. intros H. inversion H.
  now destruct (disk_ok w).
Qed.

Lemma leaderboard_init_calls w lb w' :
  LeaderBoard.init w = Ok (lb, w') -> calls w' = calls w.
Proof.
  unfold LeaderBoard.init, LeaderBoard.load_scores. intros H.
  run_step H. destruct (file w); repeat run_step H;
    try match goal with
      | R : LeaderBoard.save_scores _ _ = Ok _ |- _ =>
          apply save_scores_calls in R
      end; auto.
Qed.

Lemma reset_scores_calls lb w lb' w' :
  LeaderBoard.reset_scores lb w = Ok (lb', w') -> calls w' = calls w.
Proof.
  unfold LeaderBoard.reset_scores. intros H. repeat run_step H.
  now apply save_scores_calls in Hstep.
Qed.

Lemma init_fresh w g w' :
  Game.init w = Ok (g, w') -> fresh g /\ calls w' = calls w.
Proof.
  unfold Game.init, Snake.init. intros H.
  run_step H. apply snake_reset_Ok in Hstep. destruct Hstep as (-> & Hl & Ht & _).
  run_step H. apply leaderboard_init_calls in Hstep.
  run_step H. apply spawn_food_Ok in Hstep0, H.
  destruct Hstep0 as [[f1 ->] Hc1], H as [[f2 ->] Hc2].
  split; [| congruence].
  unfold fresh, segments, target. simpl. auto.
Qed.

Lemma restart_game_fresh g w g' w' :
  Game.restart_game g w = Ok (g', w') -> fresh g' /\ calls w' = calls w.
Proof.
  unfold Game.restart_game. intros H.
  run_step H. apply snake_reset_Ok in Hstep. destruct Hstep as (-> & Hl & Ht & _).
  run_step H. apply spawn_food_Ok in Hstep, H.
  destruct Hstep as [[f1 ->] Hc1], H as [[f2 ->] Hc2].
  split; [| congruence].
  unfold fresh, segments, target. simpl. auto.
Qed.

Lemma untouched_refl g : untouched g g.
Proof. unfold untouched. auto. Qed.

Lemma handled_refl g : handled g g.
Proof. right. apply untouched_refl. Qed.

Lemma handled_trans g1 g2 g3 : handled g1 g2 -> handled g2 g3 -> handled g1 g3.
Proof.
  unfold handled, fresh, untouched, segments, target.
  intros [H1 | H1] [H2 | H2]; auto.
  - left. destruct H1 as (? & ? & ?), H2 as (? & ? & ? & ? & ?).
    repeat split; congruence.
  - right. destruct H1 as (? & ? & ? & ? & ?), H2 as (? & ? & ? & ? & ?).
    repeat split; congruence.
Qed.

Lemma change_direction_frame d s :
  Snake.positions (Snake.change_direction d s) = Snake.positions s /\
  Snake.length (Snake.change_direction d s) = Snake.length s /\
  Snake.score (Snake.change_direction d s) = Snake.score s.
Proof.
  unfold Snake.change_direction.
  destruct (negb _); simpl; auto.
Qed.

Lemma turn_untouched d g :
  untouched g (Game.set_snake (Snake.change_direction d (Game.snake g)) g).
Proof.
  unfold untouched. simpl.
  destruct (change_direction_frame d (Game.snake g)) as (? & ? & ?). auto.
Qed.

(** Closes the cases of an event handler: a case either returns the game
    with some flags set, or goes through [restart_game] / [__init__]. *)
Ltac handler_case H :=
  repeat run_step H;
  repeat match goal with
    | Hr : Game.restart_game _ _ = Ok _ |- _ =>
        apply restart_game_fresh in Hr; destruct Hr
    | Hi : Game.init _ = Ok _ |- _ =>
        apply init_fresh in Hi; destruct Hi
    | Hs : LeaderBoard.reset_scores _ _ = Ok _ |- _ =>
        apply reset_scores_calls in Hs
    end;
  split;
  [ first [ right; solve [ apply untouched_refl | apply turn_untouched
                         | unfold untouched; simpl; auto ]
          | left; unfold fresh, segments, target in *; simpl; tauto ]
  | first [ reflexivity | assumption | congruence ] ].

Lemma on_keydown_handled key g w g' w' :
  Game.on_keydown key g w = Ok (g', w') ->
  handled g g' /\ calls w' = calls w.
Proof.
  unfold Game.on_keydown. intros H.
  destruct (Game.title_screen g);
    [| destruct (Game.show_leaderboard g) eqn:?;
       [| destruct (Game.paused g) eqn:?;
          [| destruct (Game.game_over g) eqn:? ]]];
    simpl in H; destruct key;
    repeat match type of H with
      | context [if ?b then _ else _] => destruct b eqn:?
      end;
    handler_case H.
Qed.

Lemma on_mousebuttondown_handled hit confirm g w r g' w' :
  Game.on_mousebuttondown hit confirm g w = Ok ((r, g'), w') ->
  handled g g' /\ calls w' = calls w.
Proof.
  unfold Game.on_mousebuttondown, Game.on_reset_scores. intros H.
  repeat match type of H with
    | context [if ?b then _ else _] => destruct b eqn:?
    end;
    simpl in H; handler_case H.
Qed.

Lemma handle_events_handled events : forall g w r g' w',
  Game.handle_events events g w = Ok ((r, g'), w') ->
  handled g g' /\ calls w' = calls w.
Proof.
  induction events as [| ev rest IH]; intros g w r g' w' H; simpl in H.
  - run_step H. split; [apply handled_refl | reflexivity].
  - destruct ev.
    + run_step H. split; [apply handled_refl | reflexivity].
    + run_step H. apply IH in H. destruct H as [Hh Hc].
      split; [exact Hh |]. rewrite Hc.
      unfold Game.on_videoresize, modify in Hstep. inversion Hstep.
      now destruct (negb (fullscreen w)).
    + run_step H. apply on_keydown_handled in Hstep. destruct Hstep as [H1 C1].
      apply IH in H. destruct H as [H2 C2].
      split; [eapply handled_trans; eassumption | congruence].
    + run_step H. destruct a as [o g1].
      apply on_mousebuttondown_handled in Hstep. destruct Hstep as [H1 C1].
      destruct o.
      * apply IH in H. destruct H as [H2 C2].
        split; [eapply handled_trans; eassumption | congruence].
      * run_step H. auto.
    + now apply IH in H.
Qed.

(** *** The fuel of the two [while] loops is enough

    More fuel than the loops are given changes no result. *)

Lemma bind_ext {A B} (c : M A) (k1 k2 : A -> M B) w :
  (forall a w', c w = Ok (a, w') -> k1 a w' = k2 a w') ->
  bind c k1 w = bind c k2 w.
Proof.
  unfold bind. intros H. destruct (c w) as [[a w'] | e |]; auto.
Qed.

Lemma randint_tape lo hi w a w' :
  randint lo hi w = Ok (a, w') ->
  (List.length (tape w') < List.length (tape w))%nat.
Proof.
  unfold randint. destruct (hi <? lo); [discriminate |].
  destruct (tape w) as [| r t]; [discriminate |].
  intros H; inversion H; simpl. lia.
Qed.

Lemma randomize_position_tape f w f' w' :
  Food.randomize_position f w = Ok (f', w') ->
  (List.length (tape w') < List.length (tape w))%nat.
Proof.
  unfold Food.randomize_position. intros H. repeat run_step H.
  repeat match goal with
    | R : randint _ _ _ = Ok _ |- _ => apply randint_tape in R
    end.
  lia.
Qed.

Lemma reroll_fuel_enough ps extra : forall fuel f w,
  (List.length (tape w) < fuel)%nat ->
  Game.reroll (fuel + extra) ps f w = Game.reroll fuel ps f w.
Proof.
  induction fuel as [| n IH]; intros f w Hf; [lia |].
  simpl. destruct (pos_in (Food.position f) ps); [| reflexivity].
  apply bind_ext. intros f' w' Hr.
  apply randomize_position_tape in Hr. apply IH. lia.
Qed.

Lemma top_up_fuel_enough m extra : forall fuel g w,
  m - len (Game.foods g) <= Z.of_nat fuel ->
  Game.top_up (fuel + extra) m g w = Game.top_up fuel m g w.
Proof.
  induction fuel as [| n IH]; intros g w Hf.
  - assert (E : (len (Game.foods g) <? m) = false) by (apply Z.ltb_ge; lia).
    simpl. destruct extra; simpl; rewrite E; reflexivity.
  - simpl. destruct (len (Game.foods g) <? m); [| reflexivity].
    apply bind_ext. intros g' w' Hs.
    apply spawn_food_Ok in Hs. destruct Hs as [[f ->] _].
    apply IH. simpl. rewrite len_app. unfold len at 2. simpl. lia.
Qed.

(** ** Game: one update *)

Lemma snake_update_Ok s w over s' w' :
  Snake.update s w = Ok ((over, s'), w') ->
  w' = w /\
  Snake.length s' = Snake.length s /\
  Snake.score s' = Snake.score s /\
  1 <= len (Snake.positions s) /\
  (over = true -> Snake.positions s' = Snake.positions s) /\
  (over = false ->
   len (Snake.positions s') =
   if len (Snake.positions s) + 1 >? Snake.length s
   then len (Snake.positions s) else len (Snake.positions s) + 1).
Proof.
  unfold Snake.update, Snake.get_head_position. simpl.
  destruct (Snake.positions s) as [| h body] eqn:Hp; intros H.
  - run_step H.
  - run_step H. destruct h as [hx hy].
    destruct (Snake.next_direction s) as [dx dy].
    run_step H.
    unfold py_mod in H.
    destruct (SCREEN_WIDTH w =? 0); [run_step H |].
    run_step H.
    destruct (SCREEN_HEIGHT w =? 0); [run_step H |].
    run_step H.
    pose proof (len_nonneg body) as Hb.
    change (tl ((hx, hy) :: body)) with body in H.
    match type of H with
    | context [pos_in ?p body] => destruct (pos_in p body); set (new := p) in *
    end; run_step H; cbn [Snake.positions Snake.length Snake.score
                          Snake.set_positions Snake.set_direction].
    + rewrite len_cons.
      refine (conj eq_refl (conj eq_refl (conj eq_refl (conj _ (conj _ _)))));
        [lia | intros _; exact Hp | discriminate].
    + refine (conj eq_refl (conj eq_refl (conj eq_refl (conj _ (conj _ _))))).
      * rewrite len_cons. lia.
      * discriminate.
      * intros _.
        exact (len_push_pop new (hx, hy) body (Snake.length s)).
Qed.

Lemma growth_nonneg v k : 0 <= Game.growth v k.
Proof.
  unfold Game.growth.
  destruct v; destruct (k =? 1); try lia; destruct (k =? 2); try lia;
    destruct (k =? 3); try lia; destruct (k =? 4); lia.
Qed.

Lemma eat_Ok v food g w g' w' :
  Game.eat v food g w = Ok (g', w') ->
  Snake.positions (Game.snake g') = Snake.positions (Game.snake g) /\
  Snake.length (Game.snake g')
  = Snake.length (Game.snake g) + Game.growth v (Food.type food) /\
  Snake.score (Game.snake g')
  = Snake.score (Game.snake g) + Food.points food /\
  Game.current_speed g'
  = Z.min (BASE_FPS + Snake.score (Game.snake g') / SPEED_INTERVAL) MAX_FPS /\
  Game.game_over g' = Game.game_over g /\
  Game.score_submitted g' = Game.score_submitted g /\
  calls w' = calls w.
Proof.
  unfold Game.eat. intros H. run_step H. run_step H.
  apply spawn_food_Ok in Hstep. destruct Hstep as [[f ->] Hc].
  simpl. repeat split; auto.
Qed.

Lemma eat_loop_Ok v head snapshot : forall g w g' w',
  Game.eat_loop v head snapshot g w = Ok (g', w') ->
  Snake.positions (Game.snake g') = Snake.positions (Game.snake g) /\
  Snake.length (Game.snake g) <= Snake.length (Game.snake g') /\
  Game.game_over g' = Game.game_over g /\
  Game.score_submitted g' = Game.score_submitted g /\
  calls w' = calls w.
Proof.
  induction snapshot as [| food rest IH]; intros g w g' w' H; simpl in H.
  - run_step H. repeat split; auto. lia.
  - destruct (Game.eats head food).
    + run_step H. apply eat_Ok in Hstep.
      destruct Hstep as (Hp & Hl & _ & _ & Ho & Hs & Hc).
      apply IH in H. destruct H as (Hp' & Hl' & Ho' & Hs' & Hc').
      pose proof (growth_nonneg v (Food.type food)).
      repeat split; try congruence. lia.
    + now apply IH in H.
Qed.

Lemma top_up_Ok fuel m : forall g w g' w',
  Game.top_up fuel m g w = Ok (g', w') ->
  Game.snake g' = Game.snake g /\
  Game.game_over g' = Game.game_over g /\
  Game.score_submitted g' = Game.score_submitted g /\
  calls w' = calls w.
Proof.
  induction fuel as [| n IH]; intros g w g' w' H; simpl in H;
    destruct (len (Game.foods g) <? m).
  - discriminate.
  - run_step H. auto.
  - run_step H. apply spawn_food_Ok in Hstep. destruct Hstep as [[f ->] Hc].
    apply IH in H. destruct H as (? & ? & ? & ?). simpl in *.
    repeat split; congruence.
  - run_step H. auto.
Qed.

(** A tick outside the menus: either it ends the game and leaves the
    segments alone, or it moves the snake and may raise the target. *)
Lemma update_playing v g w g' w' :
  Game.halted v g = false ->
  Game.update v g w = Ok (g', w') ->
  1 <= segments g /\
  target g <= target g' /\
  (Game.game_over g' = true -> segments g' = segments g /\ target g' = target g) /\
  (Game.game_over g' = false ->
   segments g' =
   if segments g + 1 >? target g then segments g else segments g + 1).
Proof.
  intros Hh H. unfold Game.update in H. rewrite Hh in H.
  assert (Hgo : Game.game_over g = false).
  { unfold Game.halted in Hh. rewrite !orb_false_iff in Hh. tauto. }
  run_step H. destruct a as [over s].
  apply snake_update_Ok in Hstep.
  destruct Hstep as (-> & Hl & _ & H1 & Ht & Hf).
  unfold segments, target in *.
  destruct over.
  - run_step H. simpl. rewrite Ht by reflexivity.
    repeat split; auto; try lia; discriminate.
  - specialize (Hf eq_refl).
    run_step H. run_step H.
    apply eat_loop_Ok in Hstep0. simpl in Hstep0.
    destruct Hstep0 as (Hp & Hlen & Ho & _ & _).
    apply top_up_Ok in H. destruct H as (Hs & Ho' & _ & _).
    rewrite Hs, Hp, Ho', Ho, Hgo.
    repeat split; auto; try lia; discriminate.
Qed.

Lemma update_halted v g w g' w' :
  Game.halted v g = true ->
  Game.update v g w = Ok (g', w') ->
  Game.snake g' = Game.snake g /\ Game.game_over g' = Game.game_over g.
Proof.
  intros Hh H. unfold Game.update in H. rewrite Hh in H.
  destruct (Game.game_over g && negb (Game.score_submitted g)).
  - repeat run_step H. auto.
  - run_step H. auto.
Qed.


(** [snakerush.py]'s [add_score] is [snake_rush.py]'s, except that it
    raises when the write fails. *)
Lemma snakerush_add_score_runs lb s L w :
  Snakerush.add_score lb s L w =
  if (s >? 0) && negb (disk_ok w) then Raise IOError
  else LeaderBoard.add_score lb s L w.
Proof.
  unfold Snakerush.add_score, LeaderBoard.add_score.
  destruct (s >? 0); [| reflexivity].
  unfold bind, now, Snakerush.save_scores, LeaderBoard.save_scores, modify,
    ret.
  destruct (disk_ok w); reflexivity.
Qed.

Lemma game_add_score_Ok v lb s L w r :
  Game.add_score v lb s L w = Ok r -> LeaderBoard.add_score lb s L w = Ok r.
Proof.
  destruct v; [trivial |]. unfold Game.add_score.
  rewrite snakerush_add_score_runs.
  destruct ((s >? 0) && negb (disk_ok w)); [discriminate | trivial].
Qed.


(** Where the write raises, so does the update. *)
Lemma update_raises g w :
  Game.game_over g = true -> Game.score_submitted g = false ->
  save_raises snakerush g w = true ->
  Game.update snakerush g w = Raise IOError.
Proof.
  intros Ho Hs Hr. unfold Game.update, Game.halted.
  rewrite Ho, Hs, orb_true_r. simpl.
  unfold save_raises in Hr. apply andb_true_iff in Hr. destruct Hr as [Hr Hd].
  apply andb_true_iff in Hr. destruct Hr as [Hq Hp].
  rewrite Hq. unfold bind, tell, modify, Game.add_score.
  rewrite snakerush_add_score_runs. rewrite Hp.
  change (disk_ok (with_calls _ _)) with (disk_ok w).
  now rewrite Hd.
Qed.

(** ** Sessions *)

(** Every reachable game has between one segment and [length] many. *)
Lemma reachable_segments g w :
  reachable g w -> 1 <= segments g <= target g.
Proof.
  induction 1 as [w g w' Hb Hi | g w evs r g' w' Hr IH He
                  | g w g' w' Hr IH Hu | g w t c d Hr IH].
  - apply init_fresh in Hi. destruct Hi as [(Hs & Ht & _) _]. lia.
  - apply handle_events_handled in He. destruct He as [[Hf | Hu] _].
    + destruct Hf as (Hs & Ht & _). lia.
    + destruct Hu as (Hp & Hl & _). unfold segments, target in *.
      rewrite Hp, Hl. exact IH.
  - destruct (Game.halted snake_rush g) eqn:Hh.
    + apply (update_halted _ _ _ _ _ Hh) in Hu. destruct Hu as [Hs _].
      unfold segments, target in *. rewrite Hs. exact IH.
    + apply (update_playing _ _ _ _ _ Hh) in Hu.
      destruct Hu as (_ & Ht & Ho & Hf).
      destruct (Game.game_over g') eqn:E.
      * destruct (Ho eq_refl). lia.
      * specialize (Hf eq_refl).
        destruct (segments g + 1 >? target g) eqn:G; lia.
  - exact IH.
Qed.

Lemma main_loop_reachable frames : forall g w g' w',
  reachable g w -> main_loop frames g w = Ok (g', w') ->
  reachable g' w'.
Proof.
  induction frames as [| events rest IH]; intros g w g' w' Hr H; simpl in H.
  - run_step H. exact Hr.
  - run_step H. destruct a as [result g1]. run_step H.
    assert (Hr2 : reachable a w1).
    { eapply reach_update; [| eassumption].
      eapply reach_events; eassumption. }
    destruct result.
    + eapply IH; eassumption.
    + run_step H. exact Hr2.
Qed.

Lemma main_reachable frames w g' w' :
  booted w -> main frames w = Ok (g', w') -> reachable g' w'.
Proof.
  unfold main. intros Hb H. run_step H.
  eapply main_loop_reachable; [| eassumption].
  eapply reach_boot; eassumption.
Qed.

Lemma sample_world_booted draws : booted (sample_world draws).
Proof.
  unfold booted, sample_world, BLOCK_SIZE; simpl.
  refine (conj _ (conj _ (conj _ (conj _ _)))); try reflexivity; lia.
Qed.

Lemma cx_g0_reachable : reachable cx_g0 cx_w0.
Proof.
  eapply reach_events.
  - eapply reach_boot; [apply (sample_world_booted (tape cx_world)) |].
    vm_compute. reflexivity.
  - instantiate (2 := [Game.KEYDOWN Game.K_RETURN]).
    vm_compute. reflexivity.
Qed.

(** C2, as stated, fails.  In the session [cx_world], the tick that eats
    the tier-2 food completes with one segment against a target of three,
    and the next tick, which eats nothing, completes with two segments,
    still below the target. *)
Lemma ticks_leave_segments_below_target :
  reachable cx_g0 cx_w0 /\
  Game.halted snake_rush cx_g0 = false /\
  Game.update snake_rush cx_g0 cx_w0 = Ok (cx_g1, cx_w1) /\
  Game.game_over cx_g1 = false /\
  segments cx_g1 = 1 /\ target cx_g1 = 3 /\
  Game.halted snake_rush cx_g1 = false /\
  Game.update snake_rush cx_g1 cx_w1 = Ok (cx_g2, cx_w1) /\
  Game.game_over cx_g2 = false /\
  target cx_g2 = target cx_g1 /\
  segments cx_g2 = 2 /\
  segments cx_g2 < target cx_g2.
Proof.
  split; [exact cx_g0_reachable |].
  repeat (split; [vm_compute; reflexivity |]).
  vm_compute. reflexivity.
Qed.

(** C2, amended.  After every completed non-terminal tick of a
    reachable session the snake has at least one segment and never more
    than the target; the tick brings the number of segments to
    [min (segments + 1) target] of the state it started from and never
    lowers the target; so the number equals the target after a tick
    that started at the target and ate nothing. *)
Theorem tick_segments_follow_target (g : Game.t) (w : World)
  (g' : Game.t) (w' : World) :
  reachable g w ->
  Game.halted snake_rush g = false ->
  Game.update snake_rush g w = Ok (g', w') ->
  Game.game_over g' = false ->
  1 <= segments g' <= target g' /\
  segments g' = Z.min (segments g + 1) (target g) /\
  target g <= target g' /\
  (segments g = target g -> target g' = target g -> segments g' = target g').
Proof.
  intros Hr Hh Hu Ho.
  pose proof (reachable_segments g w Hr) as Hinv.
  apply (update_playing _ _ _ _ _ Hh) in Hu.
  destruct Hu as (_ & Ht & _ & Hf). specialize (Hf Ho).
  destruct (Z.gtb_spec (segments g + 1) (target g)); lia.
Qed.

Lemma tick_segments_follow_target_witness :
  1 <= segments cx_g2 <= target cx_g2 /\
  segments cx_g2 = Z.min (segments cx_g1 + 1) (target cx_g1) /\
  target cx_g1 <= target cx_g2 /\
  (segments cx_g1 = target cx_g1 -> target cx_g2 = target cx_g1 ->
   segments cx_g2 = target cx_g2).
Proof.
  apply (tick_segments_follow_target cx_g1 cx_w1 cx_g2 cx_w1).
  - eapply reach_update; [exact cx_g0_reachable |].
    vm_compute. reflexivity.
  - reflexivity.
  - vm_compute. reflexivity.
  - reflexivity.
Defined.

(** ** Speed and pickups *)

Lemma eat_tier1_progress v f g w g' w' (len score : Z) :
  tier1 f ->
  Game.eat v f g w = Ok (g', w') ->
  fst (progress g) = (len, score) ->
  progress g'
  = (len + 1, score + 1, Z.min (BASE_FPS + (score + 1) / SPEED_INTERVAL) MAX_FPS).
Proof.
  intros [Ht Hp] He Hg. apply eat_Ok in He.
  destruct He as (_ & Hl & Hs & Hv & _).
  unfold progress in *. simpl in Hg. inversion Hg; subst.
  rewrite Hv, Hs, Hl, Ht, Hp.
  replace (Game.growth v 1) with 1 by (destruct v; reflexivity).
  reflexivity.
Qed.

(** C7. [update_speed] sets [current_speed] to
    [min (BASE_FPS + score // SPEED_INTERVAL) MAX_FPS], with the constants
    8, 5 and 20, and changes nothing else.  From a game at length 1,
    score 0 and base speed, three tier-1 pickups in a row (whatever else
    happens to the game in between, as long as length, score and speed are
    kept) end at length 4, score 3 and base speed. *)
Theorem update_speed_and_three_pickups (v : Variant) (g : Game.t) :
  (BASE_FPS = 8 /\ SPEED_INTERVAL = 5 /\ MAX_FPS = 20) /\
  Game.update_speed g
  = Game.set_current_speed
      (Z.min (BASE_FPS + Snake.score (Game.snake g) / SPEED_INTERVAL) MAX_FPS)
      g /\
  (forall f1 f2 f3 g1 g1' g2 g2' g3 w0 w1 w1' w2 w2' w3,
     progress g = (1, 0, BASE_FPS) ->
     tier1 f1 -> tier1 f2 -> tier1 f3 ->
     Game.eat v f1 g w0 = Ok (g1, w1) ->
     progress g1' = progress g1 ->
     Game.eat v f2 g1' w1' = Ok (g2, w2) ->
     progress g2' = progress g2 ->
     Game.eat v f3 g2' w2' = Ok (g3, w3) ->
     progress g3 = (4, 3, BASE_FPS)).
Proof.
  split; [repeat split |]. split; [reflexivity |].
  intros f1 f2 f3 g1 g1' g2 g2' g3 w0 w1 w1' w2 w2' w3
         Hg T1 T2 T3 E1 P1 E2 P2 E3.
  apply (eat_tier1_progress _ _ _ _ _ _ 1 0 T1) in E1;
    [| rewrite Hg; reflexivity].
  rewrite <- P1 in E1.
  apply (eat_tier1_progress _ _ _ _ _ _ 2 1 T2) in E2;
    [| rewrite E1; reflexivity].
  rewrite <- P2 in E2.
  apply (eat_tier1_progress _ _ _ _ _ _ 3 2 T3) in E3;
    [| rewrite E2; reflexivity].
  rewrite E3. reflexivity.
Qed.

Lemma update_speed_and_three_pickups_witness :
  exists g3 w3,
    (g1 <- Game.eat snake_rush (Food.mk 1 (330, 300) 0 true 1)
             (sample_game [(330, 300)] 1 0 [Food.mk 1 (330, 300) 0 true 1]) ;;
     g2 <- Game.eat snake_rush (Food.mk 1 (360, 300) 0 true 1) g1 ;;
     Game.eat snake_rush (Food.mk 1 (390, 300) 0 true 1) g2)
      (sample_world [0; 12; 10; 0; 13; 10; 0; 1; 1])
    = Ok (g3, w3) /\
    progress g3 = (4, 3, BASE_FPS).
Proof.
  eexists _, _. split; [vm_compute; reflexivity |].
  eapply (proj2 (proj2 (update_speed_and_three_pickups snake_rush
                          (sample_game [(330, 300)] 1 0
                                       [Food.mk 1 (330, 300) 0 true 1])))
            (Food.mk 1 (330, 300) 0 true 1) (Food.mk 1 (360, 300) 0 true 1)
            (Food.mk 1 (390, 300) 0 true 1) _ _ _ _ _
            (sample_world [0; 12; 10; 0; 13; 10; 0; 1; 1])
            (sample_world [0; 13; 10; 0; 1; 1])
            (sample_world [0; 13; 10; 0; 1; 1])
            (sample_world [0; 1; 1]) (sample_world [0; 1; 1])
            (sample_world [])).
  - reflexivity.
  - split; reflexivity.
  - split; reflexivity.
  - split; reflexivity.
  - vm_compute. reflexivity.
  - reflexivity.
  - vm_compute. reflexivity.
  - reflexivity.
  - vm_compute. reflexivity.
Defined.

(** The scenario of C7 played through [main]: three frames, a tier-1 food
    in front of the snake in each. *)
Example three_pickups_session :
  exists g w,
    main [[Game.KEYDOWN Game.K_RETURN]; []; []] pickup_world
    = Ok (g, w) /\
    progress g = (4, 3, BASE_FPS) /\
    Snake.positions (Game.snake g) = [(390, 300); (360, 300); (330, 300)].
Proof.
  eexists _, _. split; [vm_compute; reflexivity |]. split; reflexivity.
Qed.

(** ** Game over *)





(** * Further properties of the code *)

(** ** Snake.update in full *)

Lemma push_pop_shape {A} (new a : A) (l : list A) (n : Z) :
  (if len (new :: a :: l) >? n
   then removelast (new :: a :: l) else new :: a :: l)
  = new :: (if len (a :: l) + 1 >? n then removelast (a :: l) else a :: l).
Proof.
  rewrite (len_cons new). destruct (len (a :: l) + 1 >? n); reflexivity.
Qed.

(** What a returning [Snake.update] did. *)
Lemma snake_update_shape s w over s' w' :
  Snake.update s w = Ok ((over, s'), w') ->
  exists h body,
    Snake.positions s = h :: body /\
    SCREEN_WIDTH w <> 0 /\ SCREEN_HEIGHT w <> 0 /\ w' = w /\
    over = pos_in (wrapped_head w s h) body /\
    Snake.direction s' = Snake.next_direction s /\
    Snake.next_direction s' = Snake.next_direction s /\
    Snake.length s' = Snake.length s /\
    Snake.score s' = Snake.score s /\
    Snake.positions s' =
    if over then h :: body
    else wrapped_head w s h ::
         (if len (h :: body) + 1 >? Snake.length s
          then removelast (h :: body) else h :: body).
Proof.
  intros H. unfold Snake.update, Snake.get_head_position in H.
  cbn [Snake.positions Snake.length Snake.direction Snake.set_direction] in H.
  destruct (Snake.positions s) as [| h body] eqn:Hp.
  - run_step H.
  - run_step H. destruct h as [hx hy].
    destruct (Snake.next_direction s) as [dx dy] eqn:Hd.
    run_step H. unfold py_mod in H.
    destruct (SCREEN_WIDTH w =? 0) eqn:Ew; [run_step H |].
    run_step H.
    destruct (SCREEN_HEIGHT w =? 0) eqn:Eh; [run_step H |].
    run_step H.
    apply Z.eqb_neq in Ew, Eh.
    change (tl ((hx, hy) :: body)) with body in H.
    exists (hx, hy), body.
    assert (Hw : wrapped_head w s (hx, hy)
                 = ((hx + dx * BLOCK_SIZE) mod SCREEN_WIDTH w,
                    (hy + dy * BLOCK_SIZE) mod SCREEN_HEIGHT w)).
    { unfold wrapped_head. rewrite Hd. reflexivity. }
    rewrite Hw.
    destruct (pos_in _ body) eqn:Hin; run_step H;
      cbn [Snake.positions Snake.length Snake.score Snake.direction
           Snake.next_direction Snake.set_positions Snake.set_direction];
      refine (conj eq_refl (conj Ew (conj Eh (conj eq_refl (conj eq_refl
                (conj eq_refl (conj Hd (conj eq_refl (conj eq_refl _)))))))));
      first [exact Hp | apply push_pop_shape].
Qed.

(** X1. Wrap invariant: in a window of positive size, the head that a
    non-terminal [Snake.update] puts in front lies inside the window,
    whatever the direction and the position it started from. *)
Theorem update_head_in_window (s : Snake.t) (w : World)
  (s' : Snake.t) (w' : World) :
  0 < SCREEN_WIDTH w -> 0 < SCREEN_HEIGHT w ->
  Snake.update s w = Ok ((false, s'), w') ->
  exists x y rest,
    Snake.positions s' = (x, y) :: rest /\
    0 <= x < SCREEN_WIDTH w /\ 0 <= y < SCREEN_HEIGHT w.
Proof.
  intros Hw Hh H. apply snake_update_shape in H.
  destruct H as (h & body & _ & _ & _ & _ & _ & _ & _ & _ & _ & Hp).
  rewrite Hp. unfold wrapped_head.
  eexists _, _, _. split; [reflexivity |].
  split; apply Z.mod_pos_bound; assumption.
Qed.

Lemma update_head_in_window_witness :
  exists x y rest,
    Snake.update (Snake.mk [(570, 0)] (0, -1) (0, -1) 3 2) (sample_world [])
    = Ok ((false, Snake.mk ((x, y) :: rest) (0, -1) (0, -1) 3 2),
          sample_world []) /\
    0 <= x < 600 /\ 0 <= y < 600.
Proof.
  destruct (update_head_in_window
              (Snake.mk [(570, 0)] (0, -1) (0, -1) 3 2) (sample_world [])
              (Snake.mk [(570, 570); (570, 0)] (0, -1) (0, -1) 3 2)
              (sample_world []))
    as (x & y & rest & Hp & Hx & Hy).
  - simpl; lia.
  - simpl; lia.
  - vm_compute. reflexivity.
  - simpl in Hp. inversion Hp; subst.
    exists 570, 570, [(570, 0)].
    split; [vm_compute; reflexivity |]. split; assumption.
Defined.

(** X2. The body follows the head: after a non-terminal [Snake.update]
    the segments are the new head and then the old segments in their
    order, all of them or all but the last; the direction asked for is
    committed, and length and score are untouched. *)
Theorem update_body_follows_head (s : Snake.t) (w : World)
  (s' : Snake.t) (w' : World) (h : pos) (body : list pos) :
  Snake.positions s = h :: body ->
  Snake.update s w = Ok ((false, s'), w') ->
  (Snake.positions s' = wrapped_head w s h :: h :: body \/
   Snake.positions s' = wrapped_head w s h :: removelast (h :: body)) /\
  (Snake.positions s' = wrapped_head w s h :: h :: body <->
   len (h :: body) < Snake.length s) /\
  Snake.direction s' = Snake.next_direction s /\
  Snake.next_direction s' = Snake.next_direction s /\
  Snake.length s' = Snake.length s /\ Snake.score s' = Snake.score s.
Proof.
  intros Hp H. apply snake_update_shape in H.
  destruct H as (h0 & body0 & Hp0 & _ & _ & _ & _ & Hd & Hn & Hl & Hs & Hps).
  rewrite Hp in Hp0. inversion Hp0; subst h0 body0. clear Hp0.
  rewrite Hps.
  destruct (Z.gtb_spec (len (h :: body) + 1) (Snake.length s)) as [G | G].
  - split; [right; reflexivity |]. split; [| auto].
    split; [| lia]. intros E. exfalso.
    apply (f_equal (@List.length pos)) in E. simpl in E.
    assert (Hr : len (removelast (h :: body)) = len body)
      by apply len_removelast.
    unfold len in Hr. simpl in Hr.
    destruct body; simpl in *; lia.
  - split; [left; reflexivity |]. split; [| auto].
    split; [lia | reflexivity].
Qed.

Lemma update_body_follows_head_witness :
  Snake.update (Snake.mk [(60, 0); (30, 0); (0, 0)] (1, 0) (0, 1) 3 5)
               (sample_world [])
  = Ok ((false, Snake.mk [(60, 30); (60, 0); (30, 0)] (0, 1) (0, 1) 3 5),
        sample_world []) /\
  Snake.direction (Snake.mk [(60, 30); (60, 0); (30, 0)] (0, 1) (0, 1) 3 5)
  = (0, 1).
Proof.
  assert (E : Snake.update
                (Snake.mk [(60, 0); (30, 0); (0, 0)] (1, 0) (0, 1) 3 5)
                (sample_world [])
              = Ok ((false,
                     Snake.mk [(60, 30); (60, 0); (30, 0)] (0, 1) (0, 1) 3 5),
                    sample_world []))
    by (vm_compute; reflexivity).
  split; [exact E |].
  exact (proj1 (proj2 (proj2
           (update_body_follows_head
              (Snake.mk [(60, 0); (30, 0); (0, 0)] (1, 0) (0, 1) 3 5)
              (sample_world [])
              (Snake.mk [(60, 30); (60, 0); (30, 0)] (0, 1) (0, 1) 3 5)
              (sample_world []) (60, 0) [(30, 0); (0, 0)] eq_refl E)))).
Defined.

(** ** Food countdown *)

Lemma randint_Ok lo hi w a w' :
  randint lo hi w = Ok (a, w') ->
  lo <= a <= hi /\
  exists r t, tape w = r :: t /\ w' = with_tape t w /\
              a = lo + r mod (hi - lo + 1).
Proof.
  unfold randint. destruct (Z.ltb_spec hi lo); [discriminate |].
  destruct (tape w) as [| r t]; [discriminate |].
  intros E. inversion E; subst. split.
  - pose proof (Z.mod_pos_bound r (hi - lo + 1)). lia.
  - eauto.
Qed.

Lemma randomize_position_shape f w f' w' :
  Food.randomize_position f w = Ok (f', w') ->
  exists x y,
    0 <= x < GRID_WIDTH w /\ 0 <= y < GRID_HEIGHT w /\
    f' = Food.set_position (x * BLOCK_SIZE, y * BLOCK_SIZE) f /\
    GRID_WIDTH w' = GRID_WIDTH w /\ GRID_HEIGHT w' = GRID_HEIGHT w.
Proof.
  unfold Food.randomize_position. intros H. run_step H.
  run_step H. run_step H. run_step H.
  apply randint_Ok in Hstep, Hstep0.
  destruct Hstep as (Hx & r1 & t1 & _ & -> & _).
  destruct Hstep0 as (Hy & r2 & t2 & _ & -> & _).
  simpl in *. exists a, a0. repeat split; lia.
Qed.

Lemma food_init_shape k w f w' :
  Food.init k w = Ok (f, w') ->
  Food.type f = k /\ Food.active f = true /\ Food.timer f = lifetime k /\
  Food.points f
  = (if k =? 2 then 2 else if k =? 3 then 3 else if k =? 4 then 5 else 1) /\
  (exists x y, 0 <= x < GRID_WIDTH w /\ 0 <= y < GRID_HEIGHT w /\
               Food.position f = (x * BLOCK_SIZE, y * BLOCK_SIZE)) /\
  GRID_WIDTH w' = GRID_WIDTH w /\ GRID_HEIGHT w' = GRID_HEIGHT w.
Proof.
  unfold Food.init, lifetime. intros H. run_step H.
  apply randomize_position_shape in Hstep.
  destruct Hstep as (x & y & Hx & Hy & -> & Hgw & Hgh).
  destruct (k =? 2); [| destruct (k =? 3); [| destruct (k =? 4)]];
    run_step H; simpl; repeat split; eauto.
Qed.

Lemma food_update_steps f : 1 < Food.type f -> forall n,
  Food.type (food_after n f) = Food.type f /\
  Food.position (food_after n f) = Food.position f /\
  Food.points (food_after n f) = Food.points f /\
  Food.timer (food_after n f) = Food.timer f - Z.of_nat n /\
  Food.active (food_after n f)
  = match n with
    | O => Food.active f
    | S _ => Food.active f && (Z.of_nat n <? Food.timer f)
    end.
Proof.
  intros Ht. induction n as [| n IH].
  - simpl. repeat split. lia.
  - destruct IH as (It & Ip & Ipt & Itm & Ia).
    unfold food_after in *. rewrite Nat.iter_succ.
    set (g := Nat.iter n Food.update f) in *.
    unfold Food.update.
    assert (G : (Food.type g >? 1) = true) by (apply Z.gtb_lt; lia).
    rewrite G.
    destruct (Z.leb_spec (Food.timer g - 1) 0) as [L | L];
      cbn [Food.type Food.position Food.points Food.timer Food.active];
      (split; [exact It |]); (split; [exact Ip |]); (split; [exact Ipt |]);
      (split; [lia |]).
    + symmetry. apply andb_false_iff. right. apply Z.ltb_ge. lia.
    + assert (E : (Z.of_nat (S n) <? Food.timer f) = true)
        by (apply Z.ltb_lt; lia).
      rewrite E, andb_true_r, Ia. destruct n as [| n']; [reflexivity |].
      assert (E' : (Z.of_nat (S n') <? Food.timer f) = true)
        by (apply Z.ltb_lt; lia).
      rewrite E', andb_true_r. reflexivity.
Qed.

(** X3. A food built by [Food.__init__] for tier 1 is never changed by
    [update()]; one built for tier 2, 3 or 4 stays where it is, keeps its
    points, and is active after [n] updates exactly when [n] is below its
    countdown of 150, 100 or 80. *)
Theorem food_lifetime (k : Z) (w : World) (f : Food.t) (w' : World) (n : nat) :
  Food.init k w = Ok (f, w') ->
  (k = 1 -> food_after n f = f) /\
  (2 <= k <= 4 ->
   Food.active (food_after n f) = (Z.of_nat n <? lifetime k) /\
   Food.position (food_after n f) = Food.position f /\
   Food.points (food_after n f) = Food.points f).
Proof.
  intros H. apply food_init_shape in H.
  destruct H as (Ht & Ha & Htm & _). split.
  - intros ->. induction n as [| n IH]; [reflexivity |].
    unfold food_after in *. rewrite Nat.iter_succ, IH.
    unfold Food.update. rewrite Ht. reflexivity.
  - intros Hk.
    destruct (food_update_steps f ltac:(lia) n) as (_ & Hp & Hpt & _ & Hact).
    split; [| auto]. rewrite Hact, Ha, Htm. destruct n; [| reflexivity].
    assert (K : k = 2 \/ k = 3 \/ k = 4) by lia.
    destruct K as [-> | [-> | ->]]; reflexivity.
Qed.

Lemma food_lifetime_witness :
  Food.active (food_after 99 (Food.mk 3 (90, 60) 100 true 3)) = true /\
  Food.active (food_after 100 (Food.mk 3 (90, 60) 100 true 3)) = false.
Proof.
  assert (E : Food.init 3 (sample_world [3; 2])
              = Ok (Food.mk 3 (90, 60) 100 true 3, sample_world []))
    by (vm_compute; reflexivity).
  split.
  - rewrite (proj1 (proj2 (food_lifetime 3 _ _ _ 99 E)
                          ltac:(lia))).
    reflexivity.
  - rewrite (proj1 (proj2 (food_lifetime 3 _ _ _ 100 E)
                          ltac:(lia))).
    reflexivity.
Defined.

(** ** LeaderBoard: sorting, reloading, ranking *)

Lemma sort_desc_id l : sorted_desc l -> LeaderBoard.sort_desc l = l.
Proof.
  unfold sorted_desc. induction l as [| x r IH]; intros Hs; [reflexivity |].
  inversion Hs as [| ? ? Hr Hx]; subst. simpl. rewrite (IH Hr).
  destruct r as [| y r']; [reflexivity |]. simpl.
  inversion Hx; subst.
  destruct (Z.ltb_spec (Entry.score x) (Entry.score y)); [lia | reflexivity].
Qed.

Lemma sorted_desc_snoc l e :
  sorted_desc l -> (forall x, In x l -> Entry.score e <= Entry.score x) ->
  sorted_desc (l ++ [e]).
Proof.
  unfold sorted_desc. induction l as [| x r IH]; intros Hs Hle; simpl.
  - repeat constructor.
  - inversion Hs as [| ? ? Hr Hx]; subst. constructor.
    + apply IH; [exact Hr | intros y Hy; apply Hle; now right].
    + destruct r as [| y r']; simpl; constructor.
      * specialize (Hle x (or_introl eq_refl)). lia.
      * now inversion Hx.
Qed.

(** The first ten of a sorted list and what is cut off. *)
Lemma top_ten l :
  let b := firstn 10 (LeaderBoard.sort_desc l) in
  let d := skipn 10 (LeaderBoard.sort_desc l) in
  Permutation (b ++ d) l /\ sorted_desc b /\
  (forall k x, In k b -> In x d -> Entry.score x <= Entry.score k) /\
  len b = Z.min 10 (len l).
Proof.
  cbv zeta. split; [| split; [| split]].
  - rewrite firstn_skipn. apply sort_desc_perm.
  - apply sorted_desc_firstn, sort_desc_sorted.
  - intros k x Hk Hx.
    apply (sorted_desc_app (firstn 10 (LeaderBoard.sort_desc l))
                           (skipn 10 (LeaderBoard.sort_desc l))); auto.
    rewrite firstn_skipn. apply sort_desc_sorted.
  - unfold len. rewrite length_firstn, (Permutation_length (sort_desc_perm l)).
    lia.
Qed.

(** X4. What [add_score] writes is what the next start of the program
    reads: after a save that reached the disk, [LeaderBoard.__init__]
    returns the very board that was saved, for a positive score added
    with [add_score] and for any board of at most ten entries sorted
    highest first saved with [save_scores]. *)
Theorem saved_board_reloads (lb : LeaderBoard.t) (w : World) :
  disk_ok w = true ->
  (forall s L lb' w',
     0 < s -> LeaderBoard.add_score lb s L w = Ok (lb', w') ->
     LeaderBoard.init w' = Ok (lb', w')) /\
  (lb_inv lb ->
   exists w1, LeaderBoard.save_scores lb w = Ok (tt, w1) /\
              LeaderBoard.init w1 = Ok (lb, w1)).
Proof.
  intros Hd. split.
  - intros s L lb' w' Hs H. rewrite add_score_runs in H.
    destruct (Z.gtb_spec s 0); [| lia]. rewrite Hd in H.
    injection H as <- <-.
    set (l := LeaderBoard.sort_desc
                (LeaderBoard.scores lb ++ [Entry.mk s L (clock w)])).
    assert (Hs' : sorted_desc (firstn 10 l))
      by apply sorted_desc_firstn, sort_desc_sorted.
    assert (Hb : firstn 10 (LeaderBoard.sort_desc (firstn 10 l))
                 = firstn 10 l)
      by (rewrite (sort_desc_id _ Hs'), firstn_firstn; reflexivity).
    set (b := firstn 10 l) in *.
    change (LeaderBoard.init (with_file (Stored b) w)
            = Ok (LeaderBoard.mk b, with_file (Stored b) w)).
    unfold LeaderBoard.init, LeaderBoard.load_scores, bind, ask, ret.
    cbn [file with_file]. rewrite Hb. reflexivity.
  - intros [Hlen Hsort].
    unfold LeaderBoard.save_scores, modify. rewrite Hd.
    eexists. split; [reflexivity |].
    assert (Hb : firstn 10 (LeaderBoard.sort_desc (LeaderBoard.scores lb))
                 = LeaderBoard.scores lb)
      by (rewrite (sort_desc_id _ Hsort);
          apply firstn_all2; unfold len in Hlen; lia).
    unfold LeaderBoard.init, LeaderBoard.load_scores, bind, ask, ret.
    cbn [file with_file]. rewrite Hb.
    destruct lb; reflexivity.
Qed.

Lemma saved_board_reloads_witness :
  exists lb' w',
    LeaderBoard.add_score full_board 55 9 (sample_world []) = Ok (lb', w') /\
    LeaderBoard.init w' = Ok (lb', w').
Proof.
  destruct (LeaderBoard.add_score full_board 55 9 (sample_world []))
    as [[lb' w'] | e |] eqn:E; try (vm_compute in E; discriminate).
  exists lb', w'. split; [reflexivity |].
  apply (proj1 (saved_board_reloads full_board (sample_world []) eq_refl)
           55 9 lb' w'); [lia | exact E].
Defined.


(** X6. [add_score] of a positive score keeps the best: the entries it
    cuts off, if any, score no more than any entry it keeps, nothing else
    is lost or invented, and the board grows by one up to ten. *)
Theorem add_score_keeps_the_best (lb : LeaderBoard.t) (s L : Z) (w : World)
  (lb' : LeaderBoard.t) (w' : World) :
  0 < s ->
  LeaderBoard.add_score lb s L w = Ok (lb', w') ->
  exists dropped,
    Permutation (LeaderBoard.scores lb' ++ dropped)
                (LeaderBoard.scores lb ++ [Entry.mk s L (clock w)]) /\
    (forall k x, In k (LeaderBoard.scores lb') -> In x dropped ->
                 Entry.score x <= Entry.score k) /\
    len (LeaderBoard.scores lb') = Z.min 10 (len (LeaderBoard.scores lb) + 1).
Proof.
  intros Hs H. rewrite add_score_runs in H.
  destruct (Z.gtb_spec s 0); [| lia]. injection H as <- _.
  cbn [LeaderBoard.scores].
  destruct (top_ten (LeaderBoard.scores lb ++ [Entry.mk s L (clock w)]))
    as (Hp & _ & Hle & Hlen).
  eexists. split; [exact Hp |]. split; [exact Hle |].
  rewrite len_app in Hlen. exact Hlen.
Qed.

Lemma add_score_keeps_the_best_witness :
  exists lb' w' dropped,
    LeaderBoard.add_score full_board 55 9 (sample_world []) = Ok (lb', w') /\
    Permutation (LeaderBoard.scores lb' ++ dropped)
                (LeaderBoard.scores full_board
                   ++ [Entry.mk 55 9 "2024-01-01 12:00"]) /\
    len (LeaderBoard.scores lb') = 10.
Proof.
  destruct (LeaderBoard.add_score full_board 55 9 (sample_world []))
    as [[lb' w'] | e |] eqn:E; try (vm_compute in E; discriminate).
  destruct (add_score_keeps_the_best full_board 55 9 (sample_world []) lb' w'
              ltac:(lia) E) as (dropped & Hp & _ & Hl).
  exists lb', w', dropped. split; [reflexivity |]. split; [exact Hp |].
  exact Hl.
Defined.

Lemma is_high_score_false lb s :
  LeaderBoard.is_high_score lb s = false ->
  10 <= len (LeaderBoard.scores lb) /\
  forall e, In e (LeaderBoard.scores lb) -> s <= Entry.score e.
Proof.
  unfold LeaderBoard.is_high_score.
  destruct (LeaderBoard.scores lb) as [| e r] eqn:El; [discriminate |].
  rewrite orb_false_iff, Z.ltb_ge. intros [Hl Hm]. split; [exact Hl |].
  intros x Hx. destruct (min_score_spec e r) as [_ Hmin].
  specialize (Hmin x Hx).
  destruct (Z.gtb_spec s (LeaderBoard.min_score e r)); [discriminate | lia].
Qed.

Lemma is_high_score_true lb s :
  LeaderBoard.is_high_score lb s = true ->
  len (LeaderBoard.scores lb) < 10 \/
  exists e, In e (LeaderBoard.scores lb) /\ Entry.score e < s.
Proof.
  unfold LeaderBoard.is_high_score.
  destruct (LeaderBoard.scores lb) as [| e r] eqn:El.
  - intros _. left. unfold len. simpl. lia.
  - rewrite orb_true_iff, Z.ltb_lt, Z.gtb_lt. intros [H | H]; [now left |].
    right. destruct (min_score_spec e r) as [(x & Hx & Ex) _].
    exists x. split; [exact Hx | lia].
Qed.

Lemma add_score_result lb s L w lb' w' :
  lb_inv lb -> 0 < s ->
  LeaderBoard.add_score lb s L w = Ok (lb', w') ->
  (LeaderBoard.is_high_score lb s = false -> lb' = lb) /\
  (LeaderBoard.is_high_score lb s = true ->
   In (Entry.mk s L (clock w)) (LeaderBoard.scores lb')).
Proof.
  intros [Hlen Hsort] Hs H. rewrite add_score_runs in H.
  destruct (Z.gtb_spec s 0); [| lia]. injection H as <- _.
  set (new := Entry.mk s L (clock w)).
  set (l := LeaderBoard.scores lb) in *.
  split.
  - intros Hq. apply is_high_score_false in Hq. fold l in Hq.
    destruct Hq as [H10 Hmin].
    assert (Hsn : sorted_desc (l ++ [new]))
      by (apply sorted_desc_snoc; [exact Hsort | exact Hmin]).
    assert (E : firstn 10 (LeaderBoard.sort_desc (l ++ [new])) = l).
    { rewrite (sort_desc_id _ Hsn).
      assert (Hn : List.length l = 10%nat) by (unfold len in *; lia).
      rewrite firstn_app, Hn, Nat.sub_diag. simpl firstn at 2.
      rewrite app_nil_r. apply firstn_all2. lia. }
    transitivity (LeaderBoard.mk l); [f_equal; exact E |].
    subst l. destruct lb; reflexivity.
  - intros Hq. apply is_high_score_true in Hq. fold l in Hq.
    change (In new (firstn 10 (LeaderBoard.sort_desc (l ++ [new])))).
    pose proof (sort_desc_perm (l ++ [new])) as Hp.
    pose proof (sort_desc_sorted (l ++ [new])) as Hso.
    set (t := LeaderBoard.sort_desc (l ++ [new])) in *.
    assert (Hin : In new t).
    { apply (Permutation_in _ (Permutation_sym Hp)).
      apply in_or_app. right. now left. }
    assert (Hlt : List.length t = S (List.length l)).
    { rewrite (Permutation_length Hp), length_app. simpl. lia. }
    destruct Hq as [Hshort | (m & Hm & Hms)].
    + rewrite firstn_all2; [exact Hin | unfold len in Hshort; lia].
    + rewrite <- (firstn_skipn 10 t) in Hin, Hso.
      apply in_app_or in Hin. destruct Hin as [Hin | Hin]; [exact Hin |].
      exfalso.
      assert (Hmt : In m t).
      { apply (Permutation_in _ (Permutation_sym Hp)).
        apply in_or_app. now left. }
      rewrite <- (firstn_skipn 10 t) in Hmt. apply in_app_or in Hmt.
      destruct Hmt as [Hmt | Hmt].
      * pose proof (sorted_desc_app _ _ Hso m new Hmt Hin) as Hc.
        simpl in Hc. lia.
      * assert (Hk : (List.length (skipn 10 t) <= 1)%nat).
        { rewrite length_skipn. unfold len in Hlen. lia. }
        destruct (skipn 10 t) as [| x [| y r]];
          [contradiction | | simpl in Hk; lia].
        destruct Hin as [Hx | []]. destruct Hmt as [Hx' | []].
        assert (Entry.score m = s) by (rewrite <- Hx', Hx; reflexivity).
        lia.
Qed.


(** X7. [is_high_score] and [add_score] agree on a board of at most ten
    entries sorted highest first: a positive score that does not qualify
    leaves the list of entries exactly as it was, and a positive score
    that qualifies is on the board afterwards. *)
Theorem add_score_agrees_with_is_high_score (lb : LeaderBoard.t) (s L : Z)
  (w : World) (lb' : LeaderBoard.t) (w' : World) :
  lb_inv lb -> 0 < s ->
  LeaderBoard.add_score lb s L w = Ok (lb', w') ->
  (LeaderBoard.is_high_score lb s = false -> lb' = lb) /\
  (LeaderBoard.is_high_score lb s = true ->
   In (Entry.mk s L (clock w)) (LeaderBoard.scores lb')).
Proof. apply add_score_result. Qed.

Lemma add_score_agrees_with_is_high_score_witness :
  exists lb' w',
    LeaderBoard.add_score full_board 12 3 (sample_world []) = Ok (lb', w') /\
    lb' = full_board.
Proof.
  assert (Hinv : lb_inv full_board).
  { split; [unfold len; simpl; lia |].
    unfold sorted_desc, full_board; simpl.
    repeat (constructor; simpl; try lia). }
  destruct (LeaderBoard.add_score full_board 12 3 (sample_world []))
    as [[lb' w'] | e |] eqn:E; try (vm_compute in E; discriminate).
  exists lb', w'. split; [reflexivity |].
  apply (proj1 (add_score_agrees_with_is_high_score
                  full_board 12 3 (sample_world []) lb' w'
                  Hinv ltac:(lia) E)).
  reflexivity.
Defined.

(** X8. On a board sorted highest first, [get_high_score] is the highest
    stored score, and 0 when nothing is stored. *)
Theorem get_high_score_is_highest (lb : LeaderBoard.t) :
  sorted_desc (LeaderBoard.scores lb) ->
  (forall e, In e (LeaderBoard.scores lb) ->
             Entry.score e <= LeaderBoard.get_high_score lb) /\
  (LeaderBoard.scores lb <> [] ->
   exists e, In e (LeaderBoard.scores lb) /\
             Entry.score e = LeaderBoard.get_high_score lb) /\
  (LeaderBoard.scores lb = [] -> LeaderBoard.get_high_score lb = 0).
Proof.
  unfold LeaderBoard.get_high_score. intros Hs.
  destruct (LeaderBoard.scores lb) as [| e0 r].
  - split; [intros e [] |]. split; [congruence | reflexivity].
  - split; [| split; [| discriminate]].
    + intros e [<- | He]; [lia |].
      apply (sorted_desc_app [e0] r Hs e0 e); simpl; auto.
    + intros _. exists e0. simpl. auto.
Qed.

Lemma get_high_score_is_highest_witness :
  LeaderBoard.get_high_score full_board = 100 /\
  forall e, In e (LeaderBoard.scores full_board) -> Entry.score e <= 100.
Proof.
  assert (Hs : sorted_desc (LeaderBoard.scores full_board)).
  { unfold sorted_desc, full_board; simpl.
    repeat (constructor; simpl; try lia). }
  split; [reflexivity |].
  exact (proj1 (get_high_score_is_highest full_board Hs)).
Defined.

(** ** spawn_food *)

Lemma with_tape_with_tape t1 t2 w :
  with_tape t2 (with_tape t1 w) = with_tape t2 w.
Proof. reflexivity. Qed.

(** Code that only draws random numbers changes nothing but the tape. *)
Lemma randint_world lo hi w a w' :
  randint lo hi w = Ok (a, w') -> w' = with_tape (tape w') w.
Proof.
  intros H. apply randint_Ok in H.
  destruct H as (_ & r & t & _ & -> & _). reflexivity.
Qed.

Lemma randomize_position_world f w f' w' :
  Food.randomize_position f w = Ok (f', w') -> w' = with_tape (tape w') w.
Proof.
  unfold Food.randomize_position. intros H. run_step H.
  run_step H. run_step H. run_step H.
  apply randint_world in Hstep, Hstep0.
  rewrite Hstep0, Hstep. reflexivity.
Qed.

Lemma food_init_world k w f w' :
  Food.init k w = Ok (f, w') -> w' = with_tape (tape w') w.
Proof.
  unfold Food.init. intros H. run_step H.
  apply randomize_position_world in Hstep.
  destruct (k =? 2); [| destruct (k =? 3); [| destruct (k =? 4)]];
    run_step H; exact Hstep.
Qed.

Lemma reroll_result fuel ps : forall f w f' w',
  Game.reroll fuel ps f w = Ok (f', w') ->
  pos_in (Food.position f') ps = false /\
  w' = with_tape (tape w') w /\
  Food.type f' = Food.type f /\ Food.timer f' = Food.timer f /\
  Food.active f' = Food.active f /\ Food.points f' = Food.points f /\
  (f' = f \/
   exists x y, 0 <= x < GRID_WIDTH w /\ 0 <= y < GRID_HEIGHT w /\
               Food.position f' = (x * BLOCK_SIZE, y * BLOCK_SIZE)).
Proof.
  induction fuel as [| n IH]; intros f w f' w' H; simpl in H;
    destruct (pos_in (Food.position f) ps) eqn:Hin.
  - discriminate.
  - run_step H. rewrite Hin.
    refine (conj eq_refl (conj _ (conj eq_refl (conj eq_refl (conj eq_refl
              (conj eq_refl (or_introl eq_refl))))))).
    destruct w; reflexivity.
  - run_step H.
    pose proof (randomize_position_world _ _ _ _ Hstep) as Hw.
    apply randomize_position_shape in Hstep.
    destruct Hstep as (x & y & Hx & Hy & -> & Hgw & Hgh).
    apply IH in H.
    destruct H as (Hp & Hw' & Ht & Htm & Ha & Hpt & Hpos).
    split; [exact Hp |]. split; [rewrite Hw', Hw; reflexivity |].
    repeat (split; [assumption |]).
    right. destruct Hpos as [-> | (x' & y' & Hx' & Hy' & E)].
    + exists x, y. auto.
    + exists x', y'. rewrite Hgw in Hx'. rewrite Hgh in Hy'. auto.
  - run_step H. rewrite Hin.
    refine (conj eq_refl (conj _ (conj eq_refl (conj eq_refl (conj eq_refl
              (conj eq_refl (or_introl eq_refl))))))).
    destruct w; reflexivity.
Qed.

Lemma picked_type_range g rand :
  picked_type g rand = 1 \/ picked_type g rand = 2 \/
  picked_type g rand = 3 \/ picked_type g rand = 4.
Proof.
  unfold picked_type. cbv zeta.
  destruct (rand <=? _); [auto |].
  destruct (rand <=? _); [auto |].
  destruct (rand <=? _); auto.
Qed.

(** What [spawn_food] returns when it returns. *)
Lemma spawn_food_fresh g w g' w' :
  Game.spawn_food g w = Ok (g', w') ->
  exists f rand,
    1 <= rand <= 100 /\
    Food.type f = picked_type g rand /\
    g' = Game.set_foods (Game.foods g ++ [f]) g /\
    fresh_food w (Snake.positions (Game.snake g)) f /\
    w' = with_tape (tape w') w.
Proof.
  unfold Game.spawn_food. intros H.
  run_step H. run_step H. run_step H. run_step H. run_step H.
  fold (picked_type g a) in Hstep0.
  pose proof (randint_world _ _ _ _ _ Hstep) as Hw1.
  apply randint_Ok in Hstep. destruct Hstep as (Hr & _).
  pose proof (food_init_world _ _ _ _ Hstep0) as Hw2.
  apply food_init_shape in Hstep0.
  destruct Hstep0 as (Ht & Ha & Htm & Hpt & (x & y & Hx & Hy & Hp) & Hgw & Hgh).
  apply reroll_result in Hstep1.
  destruct Hstep1 as (Hin & Hw3 & Ht' & Htm' & Ha' & Hpt' & Hpos).
  assert (G1 : GRID_WIDTH w0 = GRID_WIDTH w) by (rewrite Hw1; reflexivity).
  assert (G2 : GRID_HEIGHT w0 = GRID_HEIGHT w) by (rewrite Hw1; reflexivity).
  exists a1, a. split; [exact Hr |]. split; [congruence |].
  split; [reflexivity |].
  split; [| rewrite Hw3, Hw2, Hw1; reflexivity].
  assert (Hcell : exists x y, 0 <= x < GRID_WIDTH w /\ 0 <= y < GRID_HEIGHT w /\
                    Food.position a1 = (x * BLOCK_SIZE, y * BLOCK_SIZE)).
  { destruct Hpos as [-> | (x' & y' & Hx' & Hy' & E)].
    - exists x, y. rewrite <- G1, <- G2. auto.
    - exists x', y'. rewrite <- G1, <- G2, <- Hgw, <- Hgh. auto. }
  unfold fresh_food, well_formed_food.
  rewrite Ha', Ha, Htm', Htm, Hpt', Hpt, Ht', Ht.
  split; [| split; [reflexivity | split; [exact Hcell |]]].
  - split; [reflexivity |]. split.
    + destruct Hcell as (x' & y' & _ & _ & ->).
      split; simpl; apply Z.divide_factor_r.
    + destruct (picked_type_range g a) as [-> | [-> | [-> | ->]]];
        simpl; unfold lifetime; simpl; intuition lia.
  - intros Hc. apply pos_in_In in Hc. congruence.
Qed.



Lemma randint_draw lo hi w r t :
  lo <= hi -> tape w = r :: t ->
  randint lo hi w = Ok (lo + r mod (hi - lo + 1), with_tape t w).
Proof.
  intros Hl Ht. unfold randint. rewrite Ht.
  destruct (Z.ltb_spec hi lo); [lia | reflexivity].
Qed.

Lemma randomize_position_draw f w x y t :
  tape w = x :: y :: t -> 0 < GRID_WIDTH w -> 0 < GRID_HEIGHT w ->
  Food.randomize_position f w
  = Ok (Food.set_position ((x mod GRID_WIDTH w) * BLOCK_SIZE,
                           (y mod GRID_HEIGHT w) * BLOCK_SIZE) f,
        with_tape t w).
Proof.
  intros Ht Hw Hh. unfold Food.randomize_position, bind, ask.
  rewrite (randint_draw 0 (GRID_WIDTH w - 1) w x (y :: t)) by (lia || exact Ht).
  rewrite (randint_draw 0 (GRID_HEIGHT w - 1) (with_tape (y :: t) w) y t)
    by (lia || reflexivity).
  unfold ret. rewrite with_tape_with_tape.
  replace (GRID_WIDTH w - 1 - 0 + 1) with (GRID_WIDTH w) by lia.
  replace (GRID_HEIGHT w - 1 - 0 + 1) with (GRID_HEIGHT w) by lia.
  reflexivity.
Qed.

Lemma food_init_draw k w x y t :
  tape w = x :: y :: t -> 0 < GRID_WIDTH w -> 0 < GRID_HEIGHT w ->
  Food.init k w
  = Ok (Food.mk k ((x mod GRID_WIDTH w) * BLOCK_SIZE,
                   (y mod GRID_HEIGHT w) * BLOCK_SIZE)
                (lifetime k) true (tier_points k),
        with_tape t w).
Proof.
  intros Ht Hw Hh. unfold Food.init, bind.
  rewrite (randomize_position_draw _ w x y t Ht Hw Hh).
  unfold lifetime, tier_points. cbn [Food.position Food.set_position].
  destruct (k =? 2); [reflexivity |].
  destruct (k =? 3); [reflexivity |].
  destruct (k =? 4); reflexivity.
Qed.

(** X10. One lucky draw is enough: when the tape holds a draw for the
    tier and a draw for a cell that no segment occupies, [spawn_food]
    returns at once, having used exactly these three numbers, with the
    food of the drawn tier on the drawn cell. *)
Theorem spawn_food_lands_on_free_cell (g : Game.t) (w : World)
  (r x y : Z) (t : list Z) :
  tape w = r :: x :: y :: t ->
  0 < GRID_WIDTH w -> 0 < GRID_HEIGHT w ->
  ~ In ((x mod GRID_WIDTH w) * BLOCK_SIZE, (y mod GRID_HEIGHT w) * BLOCK_SIZE)
       (Snake.positions (Game.snake g)) ->
  Game.spawn_food g w
  = Ok (Game.set_foods
          (Game.foods g ++
           [Food.mk (picked_type g (1 + r mod 100))
                    ((x mod GRID_WIDTH w) * BLOCK_SIZE,
                     (y mod GRID_HEIGHT w) * BLOCK_SIZE)
                    (lifetime (picked_type g (1 + r mod 100))) true
                    (tier_points (picked_type g (1 + r mod 100)))]) g,
        with_tape t w).
Proof.
  intros Ht Hw Hh Hfree. unfold Game.spawn_food.
  unfold bind at 1.
  rewrite (randint_draw 1 100 w r (x :: y :: t)) by (lia || exact Ht).
  change (100 - 1 + 1) with 100.
  fold (picked_type g (1 + r mod 100)).
  unfold bind at 1.
  rewrite (food_init_draw _ (with_tape (x :: y :: t) w) x y t)
    by (reflexivity || assumption).
  cbn [GRID_WIDTH GRID_HEIGHT with_tape].
  unfold bind, ask. cbn [Game.reroll Food.position].
  assert (Hp : pos_in ((x mod GRID_WIDTH w) * BLOCK_SIZE,
                       (y mod GRID_HEIGHT w) * BLOCK_SIZE)
                      (Snake.positions (Game.snake g)) = false).
  { apply not_true_is_false. intros Hc. apply pos_in_In in Hc. auto. }
  rewrite Hp. reflexivity.
Qed.

Lemma spawn_food_lands_on_free_cell_witness :
  Game.spawn_food (sample_game [(300, 300)] 1 0 [])
                  (sample_world [99; 24; 27; 5])
  = Ok (sample_game [(300, 300)] 1 0 [Food.mk 2 (120, 210) 150 true 2],
        sample_world [5]).
Proof.
  exact (spawn_food_lands_on_free_cell
           (sample_game [(300, 300)] 1 0 []) (sample_world [99; 24; 27; 5])
           99 24 27 [5] eq_refl eq_refl eq_refl
           ltac:(simpl; intros [H | []]; discriminate H)).
Defined.

(** ** What a tick does to the food *)

Lemma food_eqb_eq f g : Food.eqb f g = true -> f = g.
Proof.
  unfold Food.eqb. rewrite !andb_true_iff, !Z.eqb_eq.
  intros [[[[Ht Hp] Htm] Ha] Hpt].
  apply pos_eqb_eq in Hp. apply Bool.eqb_prop in Ha.
  destruct f, g; simpl in *; subst; reflexivity.
Qed.

Lemma food_eqb_refl f : Food.eqb f f = true.
Proof.
  unfold Food.eqb.
  rewrite !Z.eqb_refl, Bool.eqb_reflx, (proj2 (pos_eqb_eq _ _) eq_refl).
  reflexivity.
Qed.

(** [remove] takes out the very element the loop is looking at: nothing
    in front of it is its like. *)
Lemma remove_in_place food kept rest :
  (forall k, In k kept -> k <> food) ->
  Game.remove food (kept ++ food :: rest) = kept ++ rest.
Proof.
  induction kept as [| k kept IH]; intros Hk; simpl.
  - now rewrite food_eqb_refl.
  - destruct (Food.eqb k food) eqn:E.
    + apply food_eqb_eq in E. exfalso. apply (Hk k); [now left | exact E].
    + f_equal. apply IH. intros x Hx. apply Hk. now right.
Qed.


Lemma fresh_food_world w w' ps f :
  w' = with_tape (tape w') w -> fresh_food w' ps f -> fresh_food w ps f.
Proof. intros ->. exact (fun H => H). Qed.

Lemma eat_shape v food g w g' w' :
  Game.eat v food g w = Ok (g', w') ->
  exists f,
    Game.foods g' = Game.remove food (Game.foods g) ++ [f] /\
    fresh_food w (Snake.positions (Game.snake g)) f /\
    w' = with_tape (tape w') w /\
    steady g' = steady g.
Proof.
  unfold Game.eat. intros H. run_step H. run_step H.
  apply spawn_food_fresh in Hstep.
  destruct Hstep as (f & rand & _ & _ & -> & Hf & Hw).
  exists f. split; [reflexivity |]. split; [exact Hf |].
  split; [exact Hw | reflexivity].
Qed.

Lemma eat_loop_foods v head snapshot : forall kept spawned g w g' w',
  Game.foods g = kept ++ snapshot ++ spawned ->
  (forall k, In k kept -> Game.eats head k = false) ->
  Game.eat_loop v head snapshot g w = Ok (g', w') ->
  exists spawned',
    Game.foods g'
    = kept ++ filter (fun f => negb (Game.eats head f)) snapshot
           ++ spawned ++ spawned' /\
    Forall (fresh_food w (Snake.positions (Game.snake g))) spawned' /\
    w' = with_tape (tape w') w /\
    steady g' = steady g.
Proof.
  induction snapshot as [| food rest IH];
    intros kept spawned g w g' w' Hfoods Hkept H; simpl in H.
  - run_step H. exists []. rewrite app_nil_r.
    repeat split; auto. destruct w; reflexivity.
  - simpl. destruct (Game.eats head food) eqn:He; simpl.
    + run_step H. apply eat_shape in Hstep.
      destruct Hstep as (f & Hf & Hfresh & Hw & Hst).
      rewrite Hfoods in Hf. simpl in Hf.
      rewrite remove_in_place in Hf
        by (intros k Hk ->; rewrite (Hkept _ Hk) in He; discriminate).
      rewrite <- !app_assoc in Hf.
      destruct (IH kept (spawned ++ [f]) a w0 g' w' Hf Hkept H)
        as (sp & Hfoods' & Hsp & Hw' & Hst').
      assert (Hpos : Snake.positions (Game.snake a)
                     = Snake.positions (Game.snake g)).
      { unfold steady in Hst. congruence. }
      exists (f :: sp). split; [| split; [| split]].
      * rewrite Hfoods', <- !app_assoc. reflexivity.
      * constructor; [exact Hfresh |].
        rewrite Hpos in Hsp.
        eapply Forall_impl; [| exact Hsp].
        intros x. apply fresh_food_world. exact Hw.
      * rewrite Hw', Hw. reflexivity.
      * congruence.
    + destruct (IH (kept ++ [food]) spawned g w g' w') as (sp & Hf & Hrest).
      * rewrite Hfoods, <- app_assoc. reflexivity.
      * intros k Hk. apply in_app_or in Hk.
        destruct Hk as [Hk | [<- | []]]; auto.
      * exact H.
      * exists sp. split; [| exact Hrest].
        rewrite Hf, <- !app_assoc. reflexivity.
Qed.

Lemma top_up_foods fuel m : forall g w g' w',
  Game.top_up fuel m g w = Ok (g', w') ->
  exists spawned,
    g' = Game.set_foods (Game.foods g ++ spawned) g /\
    Forall (fresh_food w (Snake.positions (Game.snake g))) spawned /\
    m <= len (Game.foods g') /\
    w' = with_tape (tape w') w.
Proof.
  induction fuel as [| n IH]; intros g w g' w' H; simpl in H;
    destruct (Z.ltb_spec (len (Game.foods g)) m).
  - discriminate.
  - run_step H. exists []. rewrite app_nil_r.
    refine (conj _ (conj (Forall_nil _) (conj _ _)));
      [destruct g; reflexivity | lia | destruct w; reflexivity].
  - run_step H. apply spawn_food_fresh in Hstep.
    destruct Hstep as (f & rand & _ & _ & -> & Hf & Hw).
    apply IH in H. destruct H as (sp & -> & Hsp & Hm & Hw').
    exists (f :: sp). cbn [Game.foods Game.set_foods Game.snake] in *.
    rewrite <- app_assoc in *. split; [reflexivity |].
    split; [| split; [exact Hm | rewrite Hw', Hw; reflexivity]].
    constructor; [exact Hf |].
    eapply Forall_impl; [| exact Hsp].
    intros x. apply fresh_food_world. exact Hw.
  - run_step H. exists []. rewrite app_nil_r.
    refine (conj _ (conj (Forall_nil _) (conj _ _)));
      [destruct g; reflexivity | lia | destruct w; reflexivity].
Qed.



(** X12. A tick of [snake_rush.py] outside the menus ends the game
    exactly when the wrapped new head lies on the body; and then the tick
    does nothing but commit the direction and set [game_over]: segments,
    score, length, food, speed and leaderboard are as before, and no
    random number is drawn. *)
Theorem tick_ends_game_iff_collision (g : Game.t) (w : World)
  (g' : Game.t) (w' : World) :
  Game.halted snake_rush g = false ->
  Game.update snake_rush g w = Ok (g', w') ->
  exists h body,
    Snake.positions (Game.snake g) = h :: body /\
    (Game.game_over g' = true <->
     In (wrapped_head w (Game.snake g) h) body) /\
    (Game.game_over g' = true ->
     w' = w /\
     g' = Game.set_game_over true
            (Game.set_snake
               (Snake.set_direction (Snake.next_direction (Game.snake g))
                                    (Game.snake g)) g)).
Proof.
  intros Hh H. unfold Game.update in H. rewrite Hh in H.
  assert (Hgo : Game.game_over g = false).
  { unfold Game.halted in Hh. rewrite !orb_false_iff in Hh. tauto. }
  run_step H. destruct a as [over s].
  pose proof (snake_update_shape _ _ _ _ _ Hstep) as Hshape.
  destruct Hshape
    as (h & body & Hp & _ & _ & -> & Hov & Hd & Hn & Hl & Hs & Hps).
  exists h, body. split; [exact Hp |].
  destruct over.
  - run_step H. simpl. split.
    + split; [intros _; apply pos_in_In; auto | reflexivity].
    + intros _. split; [reflexivity |]. do 2 f_equal.
      destruct s; simpl in *. unfold Snake.set_direction. congruence.
  - run_step H. run_step H.
    match goal with
    | E : Game.eat_loop _ _ _ _ _ = Ok _ |- _ => rename E into Heat
    end.
    apply eat_loop_foods with (kept := []) (spawned := []) in Heat;
      [| rewrite app_nil_r; reflexivity | intros k []].
    destruct Heat as (_ & _ & _ & _ & Hst).
    apply top_up_foods in H. destruct H as (sp & -> & _).
    match type of Hst with
    | steady ?x = _ =>
        assert (Ho : Game.game_over x = false)
          by (unfold steady in Hst; simpl in Hst; congruence)
    end.
    cbn [Game.game_over Game.set_foods]. rewrite Ho.
    split; [| discriminate].
    split; [discriminate |]. intros Hin. apply pos_in_In in Hin. congruence.
Qed.

Lemma tick_ends_game_iff_collision_witness :
  Game.update snake_rush
    (Game.set_snake
       (Snake.mk [(60, 0); (30, 0); (30, 30); (60, 30); (90, 30)]
                 (1, 0) (0, 1) 5 9)
       (sample_game [] 5 9 [Food.mk 1 (0, 0) 0 true 1]))
    (sample_world [])
  = Ok (Game.set_game_over true
          (Game.set_snake
             (Snake.mk [(60, 0); (30, 0); (30, 30); (60, 30); (90, 30)]
                       (0, 1) (0, 1) 5 9)
             (sample_game [] 5 9 [Food.mk 1 (0, 0) 0 true 1])),
        sample_world []).
Proof.
  destruct (Game.update snake_rush
    (Game.set_snake
       (Snake.mk [(60, 0); (30, 0); (30, 30); (60, 30); (90, 30)]
                 (1, 0) (0, 1) 5 9)
       (sample_game [] 5 9 [Food.mk 1 (0, 0) 0 true 1]))
    (sample_world [])) as [[g' w'] | e |] eqn:E;
    try (vm_compute in E; discriminate).
  destruct (tick_ends_game_iff_collision
              (Game.set_snake
                 (Snake.mk [(60, 0); (30, 0); (30, 30); (60, 30); (90, 30)]
                           (1, 0) (0, 1) 5 9)
                 (sample_game [] 5 9 [Food.mk 1 (0, 0) 0 true 1]))
              (sample_world []) g' w' eq_refl E)
    as (h & body & Hp & Hiff & Hend).
  simpl in Hp. inversion Hp; subst h body. clear Hp.
  assert (Ho : Game.game_over g' = true).
  { apply Hiff. vm_compute. auto. }
  destruct (Hend Ho) as [-> ->]. reflexivity.
Defined.

(** ** What every session keeps *)

Lemma unit_dir_not_opposite d : unit_dir d -> d <> opposite d.
Proof.
  unfold unit_dir, opposite.
  intros [-> | [-> | [-> | ->]]]; simpl; intros H; inversion H.
Qed.

Lemma change_direction_steering d s :
  unit_dir d -> steering_ok s -> steering_ok (Snake.change_direction d s).
Proof.
  unfold steering_ok, Snake.change_direction. intros Hd (Hu & Hn & Hne).
  destruct (pos_eqb (fst d * -1, snd d * -1) (Snake.direction s)) eqn:E;
    simpl; [auto |].
  split; [exact Hu |]. split; [exact Hd |].
  intros Hc. apply not_true_iff_false in E. apply E. apply pos_eqb_eq.
  rewrite Hc. unfold opposite. destruct (Snake.direction s) as [a b].
  simpl. f_equal; lia.
Qed.

Lemma fresh_food_well_formed w ps f : fresh_food w ps f -> well_formed_food f.
Proof. intros H. exact (proj1 H). Qed.

Lemma update_well_formed f :
  well_formed_food f -> Food.active (Food.update f) = true ->
  well_formed_food (Food.update f).
Proof.
  unfold well_formed_food, Food.update.
  intros (Ha & Hal & Ht).
  destruct (Z.gtb_spec (Food.type f) 1) as [G | G].
  - destruct (Z.leb_spec (Food.timer f - 1) 0) as [L | L]; simpl;
      [discriminate |].
    intros _. split; [exact Ha |]. split; [exact Hal |]. lia.
  - intros _. auto.
Qed.

Lemma expire_well_formed l :
  Forall well_formed_food l -> Forall well_formed_food (Game.expire l).
Proof.
  induction 1 as [| f r Hf _ IH]; simpl; [constructor |].
  destruct (Food.active (Food.update f)) eqn:E; [| exact IH].
  constructor; [now apply update_well_formed | exact IH].
Qed.

Lemma growth_bounds v f :
  well_formed_food f ->
  1 <= Game.growth v (Food.type f) <= Food.points f.
Proof.
  intros (_ & _ & [(-> & -> & _) | [(-> & -> & _) | [(-> & -> & _)
                                                    | (-> & -> & _)]]]);
    destruct v; simpl; lia.
Qed.

Lemma eat_score v food g w g' w' :
  well_formed_food food -> score_ok g ->
  Game.eat v food g w = Ok (g', w') ->
  score_ok g' /\
  Snake.score (Game.snake g) < Snake.score (Game.snake g') /\
  Snake.length (Game.snake g) < Snake.length (Game.snake g').
Proof.
  intros Hf (H0 & Hl & _) H. pose proof (growth_bounds v food Hf) as Hg.
  apply eat_Ok in H. destruct H as (_ & Hlen & Hsc & Hsp & _).
  unfold score_ok. rewrite Hsp, Hlen, Hsc. repeat split; lia.
Qed.

Lemma eat_loop_score v head snapshot : forall g w g' w',
  Forall well_formed_food snapshot -> score_ok g ->
  Game.eat_loop v head snapshot g w = Ok (g', w') ->
  score_ok g' /\
  ((Snake.score (Game.snake g') = Snake.score (Game.snake g) /\
    Snake.length (Game.snake g') = Snake.length (Game.snake g)) \/
   (Snake.score (Game.snake g) < Snake.score (Game.snake g') /\
    Snake.length (Game.snake g) < Snake.length (Game.snake g'))).
Proof.
  induction snapshot as [| food rest IH]; intros g w g' w' Hwf Hok H;
    simpl in H.
  - run_step H. auto.
  - inversion Hwf as [| ? ? Hf Hr]; subst.
    destruct (Game.eats head food).
    + run_step H. apply (eat_score _ _ _ _ _ _ Hf Hok) in Hstep.
      destruct Hstep as (Hok1 & Hs1 & Hl1).
      destruct (IH _ _ _ _ Hr Hok1 H) as (Hok' & [[Hs Hl] | [Hs Hl]]).
      * split; [exact Hok' |]. right. lia.
      * split; [exact Hok' |]. right. lia.
    + eapply IH; eassumption.
Qed.

Lemma add_score_inv lb s L w lb' w' :
  lb_inv lb -> LeaderBoard.add_score lb s L w = Ok (lb', w') -> lb_inv lb'.
Proof.
  intros Hinv H. rewrite add_score_runs in H.
  destruct (s >? 0); injection H as <- _; [| exact Hinv].
  destruct (top_ten (LeaderBoard.scores lb ++ [Entry.mk s L (clock w)]))
    as (_ & Hs & _ & Hl).
  split; [| exact Hs].
  change (len (firstn 10 (LeaderBoard.sort_desc
                            (LeaderBoard.scores lb
                               ++ [Entry.mk s L (clock w)]))) <= 10).
  lia.
Qed.

Lemma leaderboard_init_inv w lb w' :
  LeaderBoard.init w = Ok (lb, w') -> lb_inv lb.
Proof.
  assert (He : lb_inv (LeaderBoard.mk [])).
  { split; [unfold len; simpl; lia | constructor]. }
  unfold LeaderBoard.init, LeaderBoard.load_scores. intros H. run_step H.
  destruct (file w) as [| | l | c].
  - run_step H. run_step H. exact He.
  - run_step H. exact He.
  - run_step H. destruct (top_ten l) as (_ & Hs & _ & Hl).
    split; [| exact Hs].
    change (len (firstn 10 (LeaderBoard.sort_desc l)) <= 10). lia.
  - discriminate H.
Qed.

Lemma spawn_food_inv g w g' w' :
  Game.spawn_food g w = Ok (g', w') -> session_inv g -> session_inv g'.
Proof.
  intros H (Hst & Hfo & Hsc & Hlb & Hsub). apply spawn_food_fresh in H.
  destruct H as (f & rand & _ & _ & -> & Hf & _).
  unfold session_inv, score_ok in *. simpl.
  split; [exact Hst |]. split; [| auto].
  apply Forall_app. split; [exact Hfo |].
  constructor; [exact (fresh_food_well_formed _ _ _ Hf) | constructor].
Qed.

Lemma fresh_start_inv s lb b1 b2 b3 :
  Snake.direction s = (1, 0) -> Snake.next_direction s = (1, 0) ->
  Snake.length s = 1 -> Snake.score s = 0 -> lb_inv lb ->
  session_inv (Game.mk s [] false false BASE_FPS lb false b1 b2 b3).
Proof.
  intros Hd Hn Hl Hs Hlb.
  unfold session_inv, steering_ok, score_ok, unit_dir, opposite. simpl.
  rewrite Hd, Hn, Hl, Hs. simpl.
  split; [split; [auto | split; [auto | discriminate]] |].
  split; [constructor |]. split; [repeat split; lia |].
  split; [exact Hlb | discriminate].
Qed.

Lemma snake_reset_shape w s w' :
  Snake.reset w = Ok (s, w') ->
  Snake.direction s = (1, 0) /\ Snake.next_direction s = (1, 0) /\
  Snake.length s = 1 /\ Snake.score s = 0.
Proof. unfold Snake.reset. intros H. run_step H. run_step H. auto. Qed.

Lemma init_inv w g w' : Game.init w = Ok (g, w') -> session_inv g.
Proof.
  unfold Game.init, Snake.init. intros H.
  run_step H. apply snake_reset_shape in Hstep.
  destruct Hstep as (Hd & Hn & Hl & Hs).
  run_step H. apply leaderboard_init_inv in Hstep.
  run_step H.
  eapply spawn_food_inv; [exact H |].
  eapply spawn_food_inv; [eassumption |].
  now apply fresh_start_inv.
Qed.

Lemma restart_game_inv g w g' w' :
  Game.restart_game g w = Ok (g', w') -> session_inv g -> session_inv g'.
Proof.
  unfold Game.restart_game. intros H (_ & _ & _ & Hlb & _).
  run_step H. apply snake_reset_shape in Hstep.
  destruct Hstep as (Hd & Hn & Hl & Hs).
  run_step H.
  eapply spawn_food_inv; [exact H |].
  eapply spawn_food_inv; [eassumption |].
  now apply fresh_start_inv.
Qed.

Lemma turn_inv d g :
  unit_dir d -> session_inv g ->
  session_inv (Game.set_snake (Snake.change_direction d (Game.snake g)) g).
Proof.
  intros Hd (Hst & Hrest).
  pose proof (change_direction_steering d _ Hd Hst) as Hst'.
  destruct (change_direction_frame d (Game.snake g)) as (_ & Hl & Hs).
  unfold session_inv, score_ok in *. simpl. rewrite Hl, Hs.
  split; [exact Hst' | exact Hrest].
Qed.

(** Closes the cases of an event handler for [session_inv]. *)
Ltac handler_inv H Hinv :=
  repeat run_step H;
  repeat match goal with
    | Hr : Game.restart_game _ _ = Ok _ |- _ =>
        apply restart_game_inv in Hr; [| exact Hinv]
    | Hi : Game.init _ = Ok _ |- _ => apply init_inv in Hi
    | Hs : LeaderBoard.reset_scores _ _ = Ok _ |- _ =>
        unfold LeaderBoard.reset_scores in Hs; repeat run_step Hs
    end;
  first
    [ exact Hinv
    | apply turn_inv; [unfold unit_dir; auto | exact Hinv]
    | match goal with
      | Hn : session_inv ?x |- session_inv _ =>
          clear - Hn;
          unfold session_inv, steering_ok, score_ok, lb_inv, len,
            sorted_desc in *;
          simpl; intuition (auto; lia)
      end ].

Lemma on_keydown_inv key g w g' w' :
  Game.on_keydown key g w = Ok (g', w') -> session_inv g -> session_inv g'.
Proof.
  unfold Game.on_keydown. intros H Hinv.
  destruct (Game.title_screen g);
    [| destruct (Game.show_leaderboard g) eqn:?;
       [| destruct (Game.paused g) eqn:?;
          [| destruct (Game.game_over g) eqn:? ]]];
    simpl in H; destruct key;
    repeat match type of H with
      | context [if ?b then _ else _] => destruct b eqn:?
      end;
    handler_inv H Hinv.
Qed.

Lemma on_mousebuttondown_inv hit confirm g w r g' w' :
  Game.on_mousebuttondown hit confirm g w = Ok ((r, g'), w') ->
  session_inv g -> session_inv g'.
Proof.
  unfold Game.on_mousebuttondown, Game.on_reset_scores. intros H Hinv.
  repeat match type of H with
    | context [if ?b then _ else _] => destruct b eqn:?
    end;
    simpl in H; handler_inv H Hinv.
Qed.

Lemma handle_events_inv events : forall g w r g' w',
  Game.handle_events events g w = Ok ((r, g'), w') ->
  session_inv g -> session_inv g'.
Proof.
  induction events as [| ev rest IH]; intros g w r g' w' H Hinv; simpl in H.
  - run_step H. exact Hinv.
  - destruct ev.
    + run_step H. exact Hinv.
    + run_step H. eapply IH; eassumption.
    + run_step H. apply on_keydown_inv in Hstep; [| exact Hinv].
      eapply IH; eassumption.
    + run_step H. destruct a as [o g1].
      apply on_mousebuttondown_inv in Hstep; [| exact Hinv].
      destruct o.
      * eapply IH; eassumption.
      * run_step H. exact Hstep.
    + eapply IH; eassumption.
Qed.

Lemma filter_well_formed (p : Food.t -> bool) l :
  Forall well_formed_food l -> Forall well_formed_food (filter p l).
Proof.
  induction 1 as [| f r Hf _ IH]; simpl; [constructor |].
  destruct (p f); [constructor; assumption | exact IH].
Qed.

Lemma fresh_foods_well_formed w ps l :
  Forall (fresh_food w ps) l -> Forall well_formed_food l.
Proof.
  intros H. eapply Forall_impl; [| exact H].
  intros f. apply fresh_food_well_formed.
Qed.

Lemma update_inv v g w g' w' :
  Game.update v g w = Ok (g', w') -> session_inv g -> session_inv g'.
Proof.
  intros H Hinv. pose proof Hinv as (Hst & Hfo & Hsc & Hlb & Hsub).
  unfold Game.update in H. destruct (Game.halted v g) eqn:Hh.
  - destruct (Game.game_over g && negb (Game.score_submitted g)) eqn:Hc.
    + apply andb_true_iff in Hc. destruct Hc as [Hgo _].
      run_step H. run_step H.
      assert (Hlb' : lb_inv a0).
      { destruct (LeaderBoard.is_high_score _ _).
        - run_step Hstep0.
          match goal with
          | A : Game.add_score _ _ _ _ _ = Ok _ |- _ =>
              apply game_add_score_Ok in A
          end.
          eapply add_score_inv; eassumption.
        - run_step Hstep0. exact Hlb. }
      run_step H. unfold session_inv, score_ok in *. simpl.
      repeat (split; [tauto |]). intros _. exact Hgo.
    + run_step H. exact Hinv.
  - assert (Hgo : Game.game_over g = false).
    { unfold Game.halted in Hh. rewrite !orb_false_iff in Hh. tauto. }
    run_step H. destruct a as [over s].
    apply snake_update_shape in Hstep.
    destruct Hstep as (h & body & _ & _ & _ & -> & _ & Hd & Hn & Hl & Hs & _).
    assert (Hst1 : steering_ok s).
    { destruct Hst as (_ & Hu & _). unfold steering_ok.
      rewrite Hd, Hn. split; [exact Hu |]. split; [exact Hu |].
      now apply unit_dir_not_opposite. }
    assert (Hsc1 : score_ok (Game.set_snake s g)).
    { unfold score_ok in *. simpl. rewrite Hl, Hs. exact Hsc. }
    destruct over.
    + run_step H. unfold session_inv. simpl.
      split; [exact Hst1 |]. split; [exact Hfo |].
      split; [exact Hsc1 |]. split; [exact Hlb |]. reflexivity.
    + run_step H. run_step H.
      match goal with
      | E : Game.eat_loop _ _ _ _ _ = Ok _ |- _ => rename E into Heat
      end.
      cbn [Game.foods Game.set_foods Game.set_snake] in Heat.
      pose proof (expire_well_formed _ Hfo) as Hexp.
      pose proof Heat as Heat2.
      apply eat_loop_score in Heat2; [| exact Hexp | exact Hsc1].
      destruct Heat2 as (Hsc2 & _).
      apply (eat_loop_foods v _ _ [] []) in Heat;
        [| rewrite app_nil_r; reflexivity | intros k []].
      destruct Heat as (sp1 & Hf1 & Hsp1 & _ & Hsteady).
      apply top_up_foods in H. destruct H as (sp2 & -> & Hsp2 & _).
      unfold steady in Hsteady. simpl in Hsteady.
      injection Hsteady as Ego _ Elb Esub _ _ _ _ Edir Enext.
      unfold session_inv. simpl. split; [| split; [| split; [| split]]].
      * unfold steering_ok in *. rewrite Edir, Enext. exact Hst1.
      * apply Forall_app. split.
        -- rewrite Hf1. simpl. apply Forall_app. split.
           ++ apply filter_well_formed. exact Hexp.
           ++ exact (fresh_foods_well_formed _ _ _ Hsp1).
        -- exact (fresh_foods_well_formed _ _ _ Hsp2).
      * unfold score_ok in *. simpl. exact Hsc2.
      * rewrite Elb. exact Hlb.
      * rewrite Esub, Ego. exact Hsub.
Qed.

Lemma reachable_session_inv g w : reachable g w -> session_inv g.
Proof.
  induction 1 as [w g w' Hb Hi | g w evs r g' w' Hr IH He
                  | g w g' w' Hr IH Hu | g w t c d Hr IH].
  - eapply init_inv; eassumption.
  - eapply handle_events_inv; eassumption.
  - eapply update_inv; eassumption.
  - exact IH.
Qed.

(** X13. No reversal: in every reachable session the committed and the
    pending direction are unit vectors and the pending one is never the
    reverse of the committed one, however many keys are pressed between
    two ticks. *)
Theorem session_never_reverses (g : Game.t) (w : World) :
  reachable g w ->
  unit_dir (Snake.direction (Game.snake g)) /\
  unit_dir (Snake.next_direction (Game.snake g)) /\
  Snake.next_direction (Game.snake g)
  <> opposite (Snake.direction (Game.snake g)).
Proof.
  intros H. exact (proj1 (reachable_session_inv g w H)).
Qed.

Lemma session_never_reverses_witness :
  Snake.next_direction (Game.snake cx_g1)
  <> opposite (Snake.direction (Game.snake cx_g1)).
Proof.
  refine (proj2 (proj2 (session_never_reverses cx_g1 cx_w1 _))).
  eapply reach_update; [exact cx_g0_reachable |].
  vm_compute. reflexivity.
Defined.

(** X14. In every reachable session every food on the board is active,
    sits on the grid, and carries the points of its tier; the tiers that
    expire have some of their countdown left. *)
Theorem session_foods_well_formed (g : Game.t) (w : World) :
  reachable g w -> Forall well_formed_food (Game.foods g).
Proof.
  intros H. exact (proj1 (proj2 (reachable_session_inv g w H))).
Qed.

Lemma session_foods_well_formed_witness :
  Forall well_formed_food (Game.foods cx_g0).
Proof. exact (session_foods_well_formed cx_g0 cx_w0 cx_g0_reachable). Defined.

(** X15. In every reachable session the score is not negative, the
    target length is at most the score plus one, and the speed is the
    one [update_speed] gives for the score, so between 8 and 20. *)
Theorem session_speed_follows_score (g : Game.t) (w : World) :
  reachable g w ->
  0 <= Snake.score (Game.snake g) /\
  Snake.length (Game.snake g) <= Snake.score (Game.snake g) + 1 /\
  Game.current_speed g
  = Z.min (8 + Snake.score (Game.snake g) / 5) 20 /\
  8 <= Game.current_speed g <= 20.
Proof.
  intros H.
  destruct (proj1 (proj2 (proj2 (reachable_session_inv g w H))))
    as (H0 & Hl & Hs).
  unfold BASE_FPS, SPEED_INTERVAL, MAX_FPS in Hs.
  split; [exact H0 |]. split; [lia |]. split; [exact Hs |].
  pose proof (Z.div_pos (Snake.score (Game.snake g)) 5 H0 ltac:(lia)).
  lia.
Qed.

Lemma session_speed_follows_score_witness :
  Game.current_speed cx_g1
  = Z.min (8 + Snake.score (Game.snake cx_g1) / 5) 20.
Proof.
  refine (proj1 (proj2 (proj2 (session_speed_follows_score cx_g1 cx_w1 _)))).
  eapply reach_update; [exact cx_g0_reachable |].
  vm_compute. reflexivity.
Defined.

(** X16. In every reachable session of [snake_rush.py] the leaderboard
    in memory has at most ten entries and is sorted by score, highest
    first.  Sessions start from a file as [FileState] describes it:
    missing, unreadable or not JSON, or a list of records with integer
    scores in any number and order (content of another shape makes
    [Game.__init__] raise, so no session starts from it). *)
Theorem session_leaderboard_sorted (g : Game.t) (w : World) :
  reachable g w -> lb_inv (Game.leaderboard g).
Proof.
  intros H. exact (proj1 (proj2 (proj2 (proj2 (reachable_session_inv g w H))))).
Qed.

Lemma session_leaderboard_sorted_witness : lb_inv (Game.leaderboard cx_g0).
Proof. exact (session_leaderboard_sorted cx_g0 cx_w0 cx_g0_reachable). Defined.

(** X17. In every reachable session [score_submitted] is set only while
    the game is over: a running, paused or restarted game always has its
    submission still ahead. *)
Theorem session_submitted_only_when_over (g : Game.t) (w : World) :
  reachable g w ->
  Game.score_submitted g = true -> Game.game_over g = true.
Proof.
  intros H. exact (proj2 (proj2 (proj2 (proj2 (reachable_session_inv g w H))))).
Qed.

Lemma session_submitted_only_when_over_witness :
  Game.score_submitted cx_g0 = false.
Proof.
  destruct (Game.score_submitted cx_g0) eqn:E; [| reflexivity].
  pose proof (session_submitted_only_when_over cx_g0 cx_w0
                cx_g0_reachable E) as H.
  discriminate H.
Defined.

(** X18. A tick never takes anything back: in a reachable session an
    update outside the menus leaves score and target length at least
    where they were, and raises the one exactly when it raises the
    other. *)
Theorem tick_never_lowers_score (g : Game.t) (w : World) (g' : Game.t)
  (w' : World) :
  reachable g w ->
  Game.halted snake_rush g = false ->
  Game.update snake_rush g w = Ok (g', w') ->
  Snake.score (Game.snake g) <= Snake.score (Game.snake g') /\
  Snake.length (Game.snake g) <= Snake.length (Game.snake g') /\
  (Snake.score (Game.snake g) < Snake.score (Game.snake g') <->
   Snake.length (Game.snake g) < Snake.length (Game.snake g')).
Proof.
  intros Hr Hh H.
  destruct (reachable_session_inv g w Hr) as (_ & Hfo & Hsc & _).
  unfold Game.update in H. rewrite Hh in H.
  run_step H. destruct a as [over s].
  apply snake_update_shape in Hstep.
  destruct Hstep as (h & body & _ & _ & _ & -> & _ & _ & _ & Hl & Hs & _).
  assert (Hsc1 : score_ok (Game.set_snake s g)).
  { unfold score_ok in *. simpl. rewrite Hl, Hs. exact Hsc. }
  destruct over.
  - run_step H. simpl. rewrite Hl, Hs. lia.
  - run_step H. run_step H.
    match goal with
    | E : Game.eat_loop _ _ _ _ _ = Ok _ |- _ => rename E into Heat
    end.
    cbn [Game.foods Game.set_foods Game.set_snake] in Heat.
    apply eat_loop_score in Heat;
      [| exact (expire_well_formed _ Hfo) | exact Hsc1].
    destruct Heat as (_ & Hcases).
    apply top_up_foods in H. destruct H as (sp & -> & _).
    simpl in *. rewrite Hl, Hs in Hcases. lia.
Qed.

Lemma tick_never_lowers_score_witness :
  Snake.score (Game.snake cx_g0) < Snake.score (Game.snake cx_g1) <->
  Snake.length (Game.snake cx_g0) < Snake.length (Game.snake cx_g1).
Proof.
  refine (proj2 (proj2 (tick_never_lowers_score cx_g0 cx_w0 cx_g1 cx_w1
                          cx_g0_reachable eq_refl _))).
  vm_compute. reflexivity.
Defined.

(** ** Logo screen and exit credits *)

Lemma load_logos_count ok1 ok2 ok3 :
  1 <= len (LogoScreen.load_logos ok1 ok2 ok3) <= 3.
Proof. destruct ok1, ok2, ok3; unfold len; simpl; lia. Qed.

Lemma logo_update_paced t0 t events s r s' :
  LogoScreen.scan events = None ->
  logo_paced t0 s ->
  LogoScreen.update t events s = (r, s') ->
  LogoScreen.logos s' = LogoScreen.logos s /\
  match r with
  | LogoScreen.Going => logo_paced t0 s'
  | LogoScreen.Done =>
      t0 + 4000 * len (LogoScreen.logos s) <= t /\
      LogoScreen.current_logo s' = len (LogoScreen.logos s)
  | LogoScreen.Quit => False
  end.
Proof.
  intros Hscan (Hld & Hfd & Hc & Hst & Hnext) H.
  unfold LogoScreen.update in H. rewrite Hscan in H. cbv zeta in H.
  destruct (LogoScreen.fade_state s) eqn:Hf; cbn iota in Hnext;
    destruct (Z.geb_spec t (LogoScreen.next_logo_time s)) as [G | G];
    try destruct (Z.geb_spec (LogoScreen.current_logo s + 1)
                             (len (LogoScreen.logos s))) as [E | E];
    injection H as <- <-; (split; [reflexivity |]);
    unfold logo_paced;
    cbn [LogoScreen.logos LogoScreen.current_logo LogoScreen.logo_duration
         LogoScreen.fade_duration LogoScreen.start_time
         LogoScreen.fade_state LogoScreen.next_logo_time];
    rewrite ?Hf, ?Hld, ?Hfd; cbn iota; repeat split; lia.
Qed.

Lemma logo_loop_paced t0 frames : forall s r t s',
  undisturbed frames -> logo_paced t0 s ->
  LogoScreen.loop frames s = Some (r, t, s') ->
  r = LogoScreen.Done /\
  t0 + 4000 * len (LogoScreen.logos s) <= t /\
  LogoScreen.current_logo s' = len (LogoScreen.logos s).
Proof.
  induction frames as [| [time events] rest IH]; intros s r t s' Hu Hp H;
    simpl in H; [discriminate |].
  inversion Hu as [| ? ? Hscan Hrest]; subst. simpl in Hscan.
  destruct (LogoScreen.update time events s) as [r1 s1] eqn:E.
  destruct (logo_update_paced t0 _ _ _ _ _ Hscan Hp E) as (Hlogos & Hr).
  destruct r1.
  - contradiction.
  - injection H as <- <- <-. destruct Hr. auto.
  - rewrite <- Hlogos. eapply IH; eassumption.
Qed.

(** X19. A logo screen that nobody skips shows every logo for at least
    four seconds: when the loop ends by itself, it ends with [True], all
    logos have had their turn, and the clock reads at least 4000 ms per
    logo more than at the start, however the frames are spaced. *)
Theorem logo_screen_takes_its_time (ticks : Z) (ok1 ok2 ok3 : bool)
  (frames : list (Z * list Pygame.Event)) (r : LogoScreen.Result) (t : Z)
  (s' : LogoScreen.t) :
  undisturbed frames ->
  LogoScreen.loop frames (LogoScreen.init ticks ok1 ok2 ok3)
  = Some (r, t, s') ->
  r = LogoScreen.Done /\
  ticks + 4000 * len (LogoScreen.load_logos ok1 ok2 ok3) <= t /\
  LogoScreen.current_logo s' = len (LogoScreen.load_logos ok1 ok2 ok3) /\
  ticks + 4000 <= t.
Proof.
  intros Hu H.
  pose proof (load_logos_count ok1 ok2 ok3) as Hn.
  apply (logo_loop_paced ticks) in H; [| exact Hu |].
  - unfold LogoScreen.init in H. cbn [LogoScreen.logos] in H.
    destruct H as (Hr & Ht & Hc).
    split; [exact Hr |]. split; [exact Ht |]. split; [exact Hc |]. lia.
  - unfold logo_paced, LogoScreen.init.
    cbn [LogoScreen.logos LogoScreen.current_logo LogoScreen.logo_duration
         LogoScreen.fade_duration LogoScreen.start_time
         LogoScreen.fade_state LogoScreen.next_logo_time].
    repeat split; lia.
Qed.

Lemma logo_screen_takes_its_time_witness :
  exists s',
    LogoScreen.loop
      [(0, []); (1000, []); (3000, [Pygame.OTHER]); (4000, [])]
      (LogoScreen.init 0 false true false)
    = Some (LogoScreen.Done, 4000, s') /\
    0 + 4000 * len (LogoScreen.load_logos false true false) <= 4000.
Proof.
  eexists.
  assert (E : LogoScreen.loop
      [(0, []); (1000, []); (3000, [Pygame.OTHER]); (4000, [])]
      (LogoScreen.init 0 false true false)
    = Some (LogoScreen.Done, 4000,
            LogoScreen.mk [2%nat] 1 4000 1000 0 LogoScreen.fade_out 4000))
    by (vm_compute; reflexivity).
  split; [exact E |].
  refine (proj1 (proj2 (logo_screen_takes_its_time 0 false true false
                          _ _ _ _ _ E))).
  repeat constructor.
Defined.

Lemma credits_loop_ends start frames : forall y d,
  (Z.to_nat ((y + 2000) / 2) < List.length frames)%nat ->
  exists n,
    credits_loop start frames y d = Some n /\
    (d <= n <= d + Z.to_nat ((y + 2000) / 2))%nat /\
    (undisturbed frames ->
     Forall (fun fr => fst fr - start < 14000) frames ->
     n = (d + Z.to_nat ((y + 2000) / 2))%nat).
Proof.
  induction frames as [| [time events] rest IH]; intros y d Hlen;
    simpl in Hlen; [lia |].
  simpl.
  destruct (Z.geb_spec (time - start) 14000) as [T | T].
  { exists d. split; [reflexivity |]. split; [lia |].
    intros _ Hf. inversion Hf; subst. simpl in *. lia. }
  destruct (LogoScreen.scan events) eqn:Hs.
  { exists d. split; [reflexivity |]. split; [lia |].
    intros Hu. inversion Hu; subst. simpl in *. congruence. }
  destruct (Z.ltb_spec (y - 2) (-2000)) as [Y | Y].
  - exists d. split; [reflexivity |].
    assert (E : (y + 2000) / 2 <= 0).
    { apply Z.lt_succ_r. apply Z.div_lt_upper_bound; lia. }
    split; [lia |]. intros _ _. lia.
  - assert (E : (y + 2000) / 2 = (y - 2 + 2000) / 2 + 1).
    { replace (y + 2000) with ((y - 2 + 2000) + 1 * 2) by lia.
      rewrite Z.div_add by lia. reflexivity. }
    assert (P : 0 <= (y - 2 + 2000) / 2) by (apply Z.div_pos; lia).
    assert (N : Z.to_nat ((y + 2000) / 2)
                = S (Z.to_nat ((y - 2 + 2000) / 2))).
    { rewrite E. lia. }
    destruct (IH (y - 2) (S d)) as (n & Hn & Hb & Hex); [lia |].
    exists n. split; [exact Hn |]. split; [lia |].
    intros Hu Hf. inversion Hu; subst. inversion Hf; subst.
    rewrite Hex by assumption. lia.
Qed.

(** X20. The exit credits always end: given more frames than
    [(SCREEN_HEIGHT + 2000) // 2], [show_exit_credits] returns after
    drawing at most that many, whatever the clock and the events; and it
    draws exactly that many when no event ends it and the 14 seconds are
    never reached. *)
Theorem exit_credits_end (start : Z) (frames : list (Z * list Pygame.Event))
  (w : World) :
  (Z.to_nat ((SCREEN_HEIGHT w + 2000) / 2) < List.length frames)%nat ->
  exists n,
    show_exit_credits start frames w = Ok (Some n, w) /\
    (n <= Z.to_nat ((SCREEN_HEIGHT w + 2000) / 2))%nat /\
    (undisturbed frames ->
     Forall (fun fr => fst fr - start < 14000) frames ->
     n = Z.to_nat ((SCREEN_HEIGHT w + 2000) / 2)).
Proof.
  intros Hlen.
  destruct (credits_loop_ends start frames (SCREEN_HEIGHT w) 0 Hlen)
    as (n & Hn & Hb & Hex).
  exists n. unfold show_exit_credits, bind, ask, ret. rewrite Hn.
  split; [reflexivity |]. split; [lia |]. exact Hex.
Qed.

Lemma exit_credits_end_witness :
  exists n,
    show_exit_credits 0 (repeat (0, []) 1400) (sample_world [])
    = Ok (Some n, sample_world []) /\
    (n <= 1300)%nat.
Proof.
  destruct (exit_credits_end 0 (repeat (0, []) 1400) (sample_world []))
    as (n & Hn & Hb & _).
  - rewrite repeat_length. vm_compute. lia.
  - exists n. split; [exact Hn |].
    change (Z.to_nat ((SCREEN_HEIGHT (sample_world []) + 2000) / 2))
      with 1300%nat in Hb.
    exact Hb.
Defined.

(** ** Restart, input, and the score at game over *)

(** X21. [restart_game] starts afresh and keeps what it should: one
    segment in the middle cell of the grid, heading right, length 1,
    score 0, base speed, exactly two fresh foods neither of them on the
    snake, [game_over], [paused] and [score_submitted] cleared; the
    leaderboard in memory and the menu flags are the ones it was given. *)
Theorem restart_game_starts_afresh (g : Game.t) (w : World) (g' : Game.t)
  (w' : World) :
  Game.restart_game g w = Ok (g', w') ->
  Game.snake g'
  = Snake.mk [(GRID_WIDTH w / 2 * BLOCK_SIZE, GRID_HEIGHT w / 2 * BLOCK_SIZE)]
             (1, 0) (1, 0) 1 0 /\
  Game.current_speed g' = BASE_FPS /\
  (exists f1 f2,
     Game.foods g' = [f1; f2] /\
     fresh_food w (Snake.positions (Game.snake g')) f1 /\
     fresh_food w (Snake.positions (Game.snake g')) f2) /\
  (Game.game_over g', Game.paused g', Game.score_submitted g')
  = (false, false, false) /\
  Game.leaderboard g' = Game.leaderboard g /\
  (Game.title_screen g', Game.show_leaderboard g', Game.show_options g')
  = (Game.title_screen g, Game.show_leaderboard g, Game.show_options g).
Proof.
  unfold Game.restart_game, Snake.reset. intros H.
  run_step H. run_step H.
  match goal with
  | E : Game.spawn_food _ w = Ok _ |- _ => rename E into Hfirst
  end.
  apply spawn_food_fresh in Hfirst.
  destruct Hfirst as (f1 & r1 & _ & _ & -> & Hf1 & Hw1).
  apply spawn_food_fresh in H.
  destruct H as (f2 & r2 & _ & _ & -> & Hf2 & Hw2).
  simpl in *. split; [reflexivity |]. split; [reflexivity |].
  split; [| auto].
  exists f1, f2. split; [reflexivity |]. split; [exact Hf1 |].
  exact (fresh_food_world _ _ _ _ Hw1 Hf2).
Qed.

Lemma restart_game_starts_afresh_witness :
  exists g' w',
    Game.restart_game ended_game (sample_world [0; 1; 1; 0; 2; 2])
    = Ok (g', w') /\
    Game.snake g' = Snake.mk [(300, 300)] (1, 0) (1, 0) 1 0 /\
    Game.leaderboard g' = Game.leaderboard ended_game.
Proof.
  destruct (Game.restart_game ended_game (sample_world [0; 1; 1; 0; 2; 2]))
    as [[g' w'] | e |] eqn:E; try (vm_compute in E; discriminate).
  destruct (restart_game_starts_afresh _ _ _ _ E) as (Hs & _ & _ & _ & Hl & _).
  exists g', w'. split; [reflexivity |]. split; [exact Hs | exact Hl].
Defined.

(** X22. Input alone never moves the snake: after any batch of events
    either the game was started afresh ([restart_game] or [__init__]), or
    segments, length, score, [game_over] and [score_submitted] are what
    they were; and no batch calls the leaderboard's [is_high_score] or
    [add_score]. *)
Theorem events_never_move_the_snake (events : list Game.Event) (g : Game.t)
  (w : World) (r : Game.Outcome) (g' : Game.t) (w' : World) :
  Game.handle_events events g w = Ok ((r, g'), w') ->
  (fresh g' \/ untouched g g') /\ calls w' = calls w.
Proof. apply handle_events_handled. Qed.

Lemma events_never_move_the_snake_witness :
  exists r g' w',
    Game.handle_events
      [Game.KEYDOWN Game.K_UP; Game.KEYDOWN Game.K_LEFT;
       Game.VIDEORESIZE (500, 400); Game.KEYDOWN Game.K_p]
      cx_g1 cx_w1 = Ok ((r, g'), w') /\
    untouched cx_g1 g'.
Proof.
  destruct (Game.handle_events
      [Game.KEYDOWN Game.K_UP; Game.KEYDOWN Game.K_LEFT;
       Game.VIDEORESIZE (500, 400); Game.KEYDOWN Game.K_p]
      cx_g1 cx_w1) as [[[r g'] w'] | e |] eqn:E;
    try (vm_compute in E; discriminate).
  destruct (events_never_move_the_snake _ _ _ _ _ _ E) as [[Hf | Hu] _].
  - exfalso. destruct Hf as (Hs & Ht & _).
    vm_compute in E. inversion E; subst. vm_compute in Ht. discriminate.
  - exists r, g', w'. split; [reflexivity | exact Hu].
Defined.

(** X23. What the first update after the end of a game leaves on a
    board of at most ten sorted entries: a positive score that
    [is_high_score] accepts is on the board, with the snake's length and
    the time of the update; any other score leaves the board as it was;
    and snake and food are not touched. *)
Theorem game_over_records_score (v : Variant) (g : Game.t) (w : World)
  (g' : Game.t) (w' : World) :
  lb_inv (Game.leaderboard g) ->
  Game.game_over g = true -> Game.score_submitted g = false ->
  Game.update v g w = Ok (g', w') ->
  (0 < Snake.score (Game.snake g) ->
   LeaderBoard.is_high_score (Game.leaderboard g) (Snake.score (Game.snake g))
   = true ->
   In (Entry.mk (Snake.score (Game.snake g)) (Snake.length (Game.snake g))
                (clock w))
      (LeaderBoard.scores (Game.leaderboard g'))) /\
  (Snake.score (Game.snake g) <= 0 \/
   LeaderBoard.is_high_score (Game.leaderboard g) (Snake.score (Game.snake g))
   = false ->
   Game.leaderboard g' = Game.leaderboard g) /\
  Game.snake g' = Game.snake g /\ Game.foods g' = Game.foods g.
Proof.
  intros Hinv Ho Hs H. unfold Game.update, Game.halted in H.
  rewrite Ho, Hs, orb_true_r in H. simpl in H.
  run_step H. run_step H. run_step H. simpl.
  split; [| split; [| auto]].
  - intros Hpos Hq. rewrite Hq in Hstep0. run_step Hstep0.
    repeat match goal with
      | T : tell _ _ = Ok _ |- _ =>
          unfold tell, modify in T; injection T as _ <-
      end.
    match goal with
    | A : Game.add_score _ _ _ _ _ = Ok _ |- _ =>
        apply game_add_score_Ok in A;
        exact (proj2 (add_score_result _ _ _ _ _ _ Hinv Hpos A) Hq)
    end.
  - intros [Hle | Hq].
    + destruct (LeaderBoard.is_high_score _ _).
      * run_step Hstep0.
        match goal with
        | A : Game.add_score _ _ _ _ _ = Ok _ |- _ =>
            apply game_add_score_Ok in A;
            rewrite add_score_runs in A;
            destruct (Z.gtb_spec (Snake.score (Game.snake g)) 0); [lia |];
            now injection A as <- _
        end.
      * now run_step Hstep0.
    + rewrite Hq in Hstep0. now run_step Hstep0.
Qed.

Lemma game_over_records_score_witness :
  exists g' w',
    Game.update snake_rush ended_game (sample_world []) = Ok (g', w') /\
    In (Entry.mk 3 4 "2024-01-01 12:00")
       (LeaderBoard.scores (Game.leaderboard g')).
Proof.
  destruct (Game.update snake_rush ended_game (sample_world []))
    as [[g' w'] | e |] eqn:E; try (vm_compute in E; discriminate).
  exists g', w'. split; [reflexivity |].
  refine (proj1 (game_over_records_score snake_rush ended_game
                   (sample_world []) g' w' _ eq_refl eq_refl E) _ eq_refl).
  - split; [unfold len; simpl; lia | constructor].
  - simpl. lia.
Defined.

(** X24. The [LeaderBoard] of [snakerush.py] against the one of
    [snake_rush.py]: [add_score] and [__init__] return the same board
    and leave the same file, except where [snakerush.py] writes without
    [try] and the file cannot be written: there [add_score] of a positive
    score and [__init__] on a missing file raise [IOError]. *)
Theorem snakerush_leaderboard_unguarded (lb : LeaderBoard.t) (s L : Z)
  (w : World) :
  Snakerush.add_score lb s L w
  = (if (s >? 0) && negb (disk_ok w) then Raise IOError
     else LeaderBoard.add_score lb s L w) /\
  Snakerush.init w
  = match file w with
    | Missing => if disk_ok w then LeaderBoard.init w else Raise IOError
    | _ => LeaderBoard.init w
    end.
Proof.
  split; [apply snakerush_add_score_runs |].
  unfold Snakerush.init, Snakerush.load_scores, LeaderBoard.init,
    LeaderBoard.load_scores, LeaderBoard.save_scores, modify, bind, ask.
  destruct (file w); try reflexivity.
  cbn [LeaderBoard.scores]. destruct (disk_ok w); reflexivity.
Qed.
